(** * Transformer generator of graphql-codegen-fetcher

    A shallow embedding of [src/dist/transformer-generator.js]: the JSON field
    detector [hasJsonFields], the code-line builder [transformJsonFields] and
    the two emitters [generateOutputTransformer] and
    [generateInputTransformer], which produce TypeScript source text.

    A field shape is the object the type resolver hands over: a mapping from
    annotated field names (["name"], ["name!"], ["name[]"], ["name[]!"]) to
    either a nested mapping or a scalar type name, the scalar ['AWSJSON']
    marking a JSON-encoded field.  JavaScript objects keep their insertion
    order, so a mapping is an association list. *)

From Stdlib Require Import String Ascii List Bool Arith Lia.
From Stdlib Require Import DecimalString DecimalNat Permutation.
Import ListNotations.
Open Scope string_scope.
Set Warnings "-register-all".

(* ------------------------------------------------------------------ *)
(** ** Strings as JavaScript sees them *)

Definition nl : string := String (ascii_of_nat 10) EmptyString.

(** [s.includes(p)] *)
Fixpoint includes (p s : string) : bool :=
  prefix p s || match s with
                | EmptyString => false
                | String _ s' => includes p s'
                end.

(** [s.substring(0, n)] where [n] was computed as [s.length - k]; a negative
    end is clamped to 0 by JavaScript, which is nat's truncated subtraction. *)
Definition substring0 (n : nat) (s : string) : string := substring 0 n s.

(** Decimal rendering of an array index, as [Object.entries] produces keys. *)
Definition index_key (i : nat) : string :=
  NilEmpty.string_of_uint (Nat.to_uint i).

(* ------------------------------------------------------------------ *)
(** ** Field shapes *)

Inductive shape : Type :=
| Scalar (marker : string)
| Obj (children : list (string * shape)).

(** [Object.entries] of a string: one entry per character, keyed by index. *)
Fixpoint string_entries_from (i : nat) (s : string) : list (string * shape) :=
  match s with
  | EmptyString => []
  | String c s' => (index_key i, Scalar (String c EmptyString))
                   :: string_entries_from (S i) s'
  end.

(** [Object.entries(fields)] for a defined value. *)
Definition entries (t : shape) : list (string * shape) :=
  match t with
  | Obj kids => kids
  | Scalar s => string_entries_from 0 s
  end.

(** JavaScript truthiness of a shape value: objects are truthy, the empty
    string is the only falsy string. *)
Definition truthy_shape (t : shape) : bool :=
  match t with
  | Obj _ => true
  | Scalar s => negb (String.eqb s "")
  end.

Definition AWSJSON : string := "AWSJSON".

(* ------------------------------------------------------------------ *)
(** ** [hasJsonFields] (lines 77-90) *)

(** The verdict of one entry value: a truthy object recurses (its own
    [!fields] test passes, objects being truthy), anything else is compared
    with ['AWSJSON']. *)
Fixpoint hasJsonFields_value (fieldValue : shape) : bool :=
  match fieldValue with
  | Obj sub =>
      Nat.ltb 0 (List.length (filter (fun b => b)
        ((fix go (l : list (string * shape)) : list bool :=
            match l with
            | [] => []
            | (_, v) :: r => hasJsonFields_value v :: go r
            end) sub)))
  | Scalar m => String.eqb m AWSJSON
  end.

(** [Object.entries(fields).map(...)] *)
Definition hasJsonFields_entries (kids : list (string * shape)) : list bool :=
  map (fun kv => hasJsonFields_value (snd kv)) kids.

(** The body after the [!fields] test: [... .filter(Boolean).length > 0]. *)
Definition hasJsonFields_shape (t : shape) : bool :=
  if negb (truthy_shape t) then false
  else Nat.ltb 0 (List.length (filter (fun b => b) (hasJsonFields_entries (entries t)))).

(** [fields] may be [undefined]: [None]. *)
Definition hasJsonFields (fields : option shape) : bool :=
  match fields with
  | None => false
  | Some t => hasJsonFields_shape t
  end.

(* ------------------------------------------------------------------ *)
(** ** [transformJsonFields] (lines 48-76) *)

Inductive transformer : Type := parse | stringify.

(** Lines 51-56: the annotated key decoded into the base name, the two flags
    and the singular used for an array element variable. *)
Record fieldKey : Type := {
  key_fieldName : string;
  key_isMandatory : bool;
  key_isArray : bool;
  key_fieldNameSingular : string
}.

Definition parseFieldKey (field : string) : fieldKey :=
  let isMandatory := includes "!" field in
  let fieldName1 :=
    if isMandatory then substring0 (String.length field - 1) field else field in
  let isArray := includes "[]" field in
  let fieldName :=
    if isArray then substring0 (String.length fieldName1 - 2) fieldName1
    else fieldName1 in
  {| key_fieldName := fieldName;
     key_isMandatory := isMandatory;
     key_isArray := isArray;
     key_fieldNameSingular := substring0 (String.length fieldName - 1) fieldName |}.

(** Lines 67-72: the override line of a JSON scalar. *)
Definition jsonLine (t : transformer) (fieldName fieldPath : string) : list string :=
  match t with
  | parse =>
      [fieldName ++ ": " ++ fieldPath ++ " && JSON.parse(" ++ fieldPath
       ++ " as unknown as string),"]
  | stringify =>
      [fieldName ++ ": " ++ fieldPath ++ " && JSON.stringify(" ++ fieldPath
       ++ " as unknown as Record<string, any>),"]
  end.

(** One iteration of the loop over [Object.entries(fields)] (lines 51-73):
    the lines pushed onto [stack] for the entry [(field, fieldValue)]. *)
Fixpoint fieldLines (field : string) (fieldValue : shape) (path : string)
    (t : transformer) {struct fieldValue} : list string :=
  let k := parseFieldKey field in
  let fieldName := key_fieldName k in
  let fieldNameSingular := key_fieldNameSingular k in
  let fieldPath := path ++ "." ++ fieldName in
  match fieldValue with
  | Obj sub =>
      let rec := fix go (l : list (string * shape)) (p : string) : list string :=
                   match l with
                   | [] => []
                   | (f, v) :: r => app (fieldLines f v p t) (go r p)
                   end in
      if key_isArray k then
        app [fieldName ++ ": " ++ fieldPath ++ "?.map((" ++ fieldNameSingular ++ ") => ({";
             "..." ++ fieldNameSingular ++ ","]
          (app (rec sub (fieldNameSingular ++ "?")) ["}))," ])
      else
        app [fieldName ++ ": {"; "..." ++ fieldPath ++ ","]
          (app (rec sub (fieldPath ++ "?")) ["},"])
  | Scalar m =>
      if String.eqb m AWSJSON then jsonLine t fieldName fieldPath else []
  end.

(** [transformJsonFields(fields, path, transformer)]: the lines of every
    entry, in iteration order. *)
Fixpoint transformJsonFields (fields : list (string * shape)) (path : string)
    (t : transformer) : list string :=
  match fields with
  | [] => []
  | (field, fieldValue) :: rest =>
      app (fieldLines field fieldValue path t) (transformJsonFields rest path t)
  end.

(* ------------------------------------------------------------------ *)
(** ** The emitters (lines 4-46) *)

(** Exceptions raised by the JavaScript built-ins the model uses. *)
Inductive js_error : Type := TypeError | SyntaxError.

(** Result of a JavaScript evaluation that may throw. *)
Inductive js_result (A : Type) : Type :=
| Ok (v : A)
| Throw (e : js_error).
Arguments Ok {A} v.
Arguments Throw {A} e.

(** [generateQueryVariablesSignature] (lines 4-6). *)
Definition generateQueryVariablesSignature (hasRequiredVariables : bool)
    (operationVariablesTypes : string) : string :=
  "variables" ++ (if hasRequiredVariables then "" else "?") ++ ": "
  ++ operationVariablesTypes.

(** The [outputType] object of the type resolver. *)
Record OutputType : Type := {
  fieldName : string;
  typeName : string;
  fields : option shape
}.

(** One value of the [variablesType] object: only its [fields] is read. *)
Record VariableType : Type := {
  variableFields : option shape
}.

(** [Object.entries(x || {})] for the optional [fields] of a variable. *)
Definition entries_or_empty (fields : option shape) : list (string * shape) :=
  match fields with
  | Some t => if truthy_shape t then entries t else []
  | None => []
  end.

Definition bq : string := "`".

Definition outputComment (operationName fieldName typeName operationResultType : string)
    : string :=
  nl ++ "/**" ++ nl
  ++ "  * Output transformer function for " ++ bq ++ operationName ++ bq ++ "." ++ nl
  ++ "  * It extracts the " ++ bq ++ fieldName ++ bq
  ++ " field from the result and transforms it into a " ++ bq ++ typeName ++ bq
  ++ " object." ++ nl
  ++ "  * If the object contains JSON fields, it will automatically JSON parse these fields and return a new object." ++ nl
  ++ "  * If the object does not conatain any JSON fields, it will return the orignal object." ++ nl
  ++ "  * @param data " ++ operationResultType ++ " - The data returned from the GraphQL server" ++ nl
  ++ "  * @returns " ++ typeName ++ " - The transformed data" ++ nl
  ++ "  */".

(** [generateOutputTransformer] (lines 8-22); the AST [node] is unused and
    omitted.  The [transformJsonFields] call of the JSON branch receives
    [fields], which is defined there because [hasJsonFields(fields)] held. *)
Definition generateOutputTransformer (operationName operationVariablesTypes
    operationResultType : string) (hasRequiredVariables : bool)
    (outputType : OutputType) : string :=
  let fn := fieldName outputType in
  let comment := outputComment operationName fn (typeName outputType)
                   operationResultType in
  let implementation :=
    "export const " ++ operationName ++ "Output = ({ " ++ fn ++ " }: "
    ++ operationResultType ++ ") => "
    ++ (if hasJsonFields (fields outputType)
        then fn ++ " && ({..." ++ fn ++ ", "
             ++ String.concat nl (transformJsonFields (entries_or_empty (fields outputType)) fn parse)
             ++ " }) as " ++ typeName outputType
        else fn ++ " as " ++ typeName outputType)
    ++ ";" in
  nl ++ comment ++ nl ++ implementation.

Definition inputComment (operationName operationVariablesTypes : string)
    (hasVariables : bool) : string :=
  nl ++ "/**" ++ nl
  ++ "  * Input transformer function for " ++ bq ++ operationName ++ bq ++ "." ++ nl
  ++ "  * It transforms the fields of the variables into JSON strings." ++ nl
  ++ "  * If the variables contain JSON fields, it will automatically JSON stringify these fields and return a new "
  ++ bq ++ "variables" ++ bq ++ " object." ++ nl
  ++ "  * If the variables do not conatain any JSON fields, it will return the orignal "
  ++ bq ++ "variables" ++ bq ++ " object." ++ nl
  ++ "  * If no variables are defined, the function returns " ++ bq ++ "undefined" ++ bq ++ "." ++ nl
  ++ "  * " ++ (if hasVariables
               then "@param variables " ++ bq ++ operationVariablesTypes ++ bq
                    ++ " - The original variables"
               else "") ++ nl
  ++ "  * " ++ (if hasVariables
               then "@returns " ++ bq ++ operationVariablesTypes ++ bq
                    ++ " - The transformed variables"
               else "@returns " ++ bq ++ "undefined" ++ bq) ++ nl
  ++ "  */".

(** The per-variable entry of line 41; a template literal renders the array
    of lines with [Array.prototype.toString], i.e. joined by [","]. *)
Definition variableEntry (field : string) (v : VariableType) : string :=
  field ++ ": { "
  ++ String.concat "," (transformJsonFields (entries_or_empty (variableFields v))
                   ("variables." ++ field) stringify)
  ++ " },".

(** [generateInputTransformer] (lines 24-46).  [variablesType] is [None] for
    [undefined]/[null]; its keys are those of the association list. *)
Definition generateInputTransformer (operationName operationVariablesTypes
    operationResultType : string) (hasRequiredVariables : bool)
    (variablesType : option (list (string * VariableType))) : js_result string :=
  let signature := generateQueryVariablesSignature hasRequiredVariables
                     operationVariablesTypes in
  match variablesType with
  | None => Throw TypeError (* [Object.keys(variablesType)], line 27 *)
  | Some vt =>
      let hasVariables := Nat.ltb 0 (List.length vt) in
      let hasJson := existsb (fun kv => hasJsonFields (variableFields (snd kv))) vt in
      let comment := inputComment operationName operationVariablesTypes hasVariables in
      let implementation :=
        if hasVariables
        then "export const " ++ operationName ++ "Input = (" ++ signature ++ ") => "
             ++ (if hasJson
                 then "({...variables, "
                      ++ String.concat nl
                           (map (fun kv => variableEntry (fst kv) (snd kv))
                              (filter (fun kv => hasJsonFields (variableFields (snd kv))) vt))
                      ++ " }) as " ++ operationVariablesTypes
                 else "variables as " ++ operationVariablesTypes)
             ++ ";"
        else "export const " ++ operationName ++ "Input = () => undefined;" in
      Ok (nl ++ comment ++ nl ++ implementation)
  end.

(* ------------------------------------------------------------------ *)
(** ** Notions used to state the properties *)

(** A Scalar leaf carrying the JSON-text marker is reachable from a shape:
    the shape is such a leaf, or one of its children reaches one. *)
Inductive json_leaf_reachable : shape -> Prop :=
| jlr_here : json_leaf_reachable (Scalar AWSJSON)
| jlr_below : forall kids k v,
    In (k, v) kids -> json_leaf_reachable v -> json_leaf_reachable (Obj kids).

(** A key without its trailing mandatory marker, if it has one. *)
Fixpoint drop_bang (k : string) : string :=
  match k with
  | EmptyString => EmptyString
  | String c EmptyString => if Ascii.eqb c "!" then EmptyString else k
  | String c r => String c (drop_bang r)
  end.

(** An annotated key whose only ['!'] is a trailing one. *)
Definition key_wf (k : string) : bool := negb (includes "!" (drop_bang k)).

Fixpoint shape_wf (t : shape) : bool :=
  match t with
  | Scalar _ => true
  | Obj kids =>
      (fix go (l : list (string * shape)) : bool :=
         match l with
         | [] => true
         | (k, v) :: r => key_wf k && shape_wf v && go r
         end) kids
  end.

Definition children_wf (kids : list (string * shape)) : bool := shape_wf (Obj kids).

(** Every key of a shape with its trailing ['!'] removed. *)
Fixpoint strip_bangs (t : shape) : shape :=
  match t with
  | Scalar m => Scalar m
  | Obj kids =>
      Obj ((fix go (l : list (string * shape)) : list (string * shape) :=
              match l with
              | [] => []
              | (k, v) :: r => (drop_bang k, strip_bangs v) :: go r
              end) kids)
  end.

(** Every key of a shape replaced by the empty name. *)
Fixpoint erase_keys (t : shape) : shape :=
  match t with
  | Scalar m => Scalar m
  | Obj kids =>
      Obj ((fix go (l : list (string * shape)) : list (string * shape) :=
              match l with
              | [] => []
              | (_, v) :: r => ("", erase_keys v) :: go r
              end) kids)
  end.

(* ------------------------------------------------------------------ *)
(** ** JavaScript values

    The values the generated code runs on.  Numbers are kept abstract: the
    type [Num] stands for the finite and non-finite doubles, with their
    JavaScript operations supplied where a development needs them. *)

Inductive jsval (Num : Type) : Type :=
| JUndefined
| JNull
| JBool (b : bool)
| JNum (n : Num)
| JStr (s : string)
| JArr (elems : list (jsval Num))
| JObj (props : list (string * jsval Num)).
Arguments JUndefined {Num}.
Arguments JNull {Num}.
Arguments JBool {Num} b.
Arguments JNum {Num} n.
Arguments JStr {Num} s.
Arguments JArr {Num} elems.
Arguments JObj {Num} props.

Section Access.
Context {Num : Type}.

Definition nullish (v : jsval Num) : bool :=
  match v with JUndefined | JNull => true | _ => false end.

Fixpoint lookup_prop (name : string) (props : list (string * jsval Num)) : jsval Num :=
  match props with
  | [] => JUndefined
  | (k, v) :: r => if String.eqb k name then v else lookup_prop name r
  end.

(** [v.name]: a [TypeError] on [null] and [undefined]; an own data property
    of an object, [undefined] when missing.  The generated accesses only read
    data fields of objects, so other receivers give [undefined]. *)
Definition get_member (v : jsval Num) (name : string) : js_result (jsval Num) :=
  match v with
  | JUndefined | JNull => Throw TypeError
  | JObj props => Ok (lookup_prop name props)
  | _ => Ok JUndefined
  end.

(** A member chain [base.a?.b...]: each access is plain ([false]) or optional
    ([true]); an optional access on a nullish value short-circuits the whole
    rest of the chain to [undefined]. *)
Fixpoint eval_chain (v : jsval Num) (accesses : list (bool * string)) : js_result (jsval Num) :=
  match accesses with
  | [] => Ok v
  | (optional, name) :: r =>
      if optional && nullish v then Ok JUndefined
      else match get_member v name with
           | Ok w => eval_chain w r
           | Throw e => Throw e
           end
  end.

End Access.

(** Splitting an access path such as ["variables.input?.data"] at its dots. *)
Fixpoint split_dots_acc (cur : string) (s : string) : list string :=
  match s with
  | EmptyString => [cur]
  | String c r =>
      if Ascii.eqb c "." then cur :: split_dots_acc "" r
      else split_dots_acc (cur ++ String c EmptyString) r
  end.

Definition split_dots (s : string) : list string := split_dots_acc "" s.

Fixpoint ends_with_q (s : string) : bool :=
  match s with
  | EmptyString => false
  | String c EmptyString => Ascii.eqb c "?"
  | String _ r => ends_with_q r
  end.

Definition strip_q (s : string) : string :=
  if ends_with_q s then substring0 (String.length s - 1) s else s.

(** The base identifier and the accesses of a path: a segment ending in
    ['?'] makes the next access optional. *)
Fixpoint accesses_of (optional : bool) (segs : list string) : list (bool * string) :=
  match segs with
  | [] => []
  | x :: r => (optional, strip_q x) :: accesses_of (ends_with_q x) r
  end.

Definition chain_of_path (path : string) : string * list (bool * string) :=
  match split_dots path with
  | [] => ("", [])
  | b :: r => (strip_q b, accesses_of (ends_with_q b) r)
  end.

(** Evaluation of an access path in an environment binding its base name. *)
Definition eval_path {Num : Type} (env : list (string * jsval Num)) (path : string)
    : js_result (jsval Num) :=
  let '(b, acc) := chain_of_path path in
  eval_chain (lookup_prop b env) acc.

(* ------------------------------------------------------------------ *)
(** ** [JSON.stringify] and [JSON.parse]

    The built-ins called by the override lines of a JSON scalar, after
    ECMA-262 (SerializeJSONProperty, QuoteJSONString, and the JSON text
    grammar of [JSON.parse]), with no replacer, indentation or reviver.  A
    string is a sequence of 8-bit code units.  Numbers are abstract: the
    section takes Number::toString, the parse of a number token, and the
    finiteness and truthiness tests. *)

Section JSON.
Local Open Scope nat_scope.
Context {Num : Type}.
Variable num_to_string : Num -> string.
Variable string_to_number : string -> option Num.
Variable num_is_finite : Num -> bool.
Variable num_truthy : Num -> bool.

Definition dq : ascii := ascii_of_nat 34.
Definition bs : ascii := ascii_of_nat 92.

Definition char_s (c : ascii) : string := String c EmptyString.

(** JavaScript truthiness. *)
Definition truthy (v : jsval Num) : bool :=
  match v with
  | JUndefined | JNull => false
  | JBool b => b
  | JNum n => num_truthy n
  | JStr s => negb (String.eqb s "")
  | JArr _ | JObj _ => true
  end.

Definition hex_digit (d : nat) : ascii :=
  ascii_of_nat (if d <? 10 then 48 + d else 87 + d).

(** QuoteJSONString, one code unit. *)
Definition escape_char (c : ascii) : string :=
  let n := nat_of_ascii c in
  if n =? 34 then String bs (char_s dq)
  else if n =? 92 then String bs (char_s bs)
  else if n =? 8 then String bs "b"
  else if n =? 9 then String bs "t"
  else if n =? 10 then String bs "n"
  else if n =? 12 then String bs "f"
  else if n =? 13 then String bs "r"
  else if n <? 32 then
    String bs ("u00" ++ String (hex_digit (n / 16)) (char_s (hex_digit (n mod 16))))
  else char_s c.

Fixpoint escape_string (s : string) : string :=
  match s with
  | EmptyString => EmptyString
  | String c r => escape_char c ++ escape_string r
  end.

Definition quote (s : string) : string := String dq (escape_string s ++ char_s dq).

(** SerializeJSONProperty; [None] is the [undefined] it returns for
    [undefined]. *)
Fixpoint serialize (v : jsval Num) : option string :=
  match v with
  | JUndefined => None
  | JNull => Some "null"
  | JBool b => Some (if b then "true" else "false")
  | JNum n => Some (if num_is_finite n then num_to_string n else "null")
  | JStr s => Some (quote s)
  | JArr elems =>
      Some ("[" ++ String.concat ","
              ((fix go (l : list (jsval Num)) : list string :=
                  match l with
                  | [] => []
                  | e :: r => match serialize e with
                              | Some x => x
                              | None => "null"
                              end :: go r
                  end) elems) ++ "]")
  | JObj props =>
      Some ("{" ++ String.concat ","
              ((fix go (l : list (string * jsval Num)) : list string :=
                  match l with
                  | [] => []
                  | (k, e) :: r => match serialize e with
                                   | Some x => (quote k ++ ":" ++ x) :: go r
                                   | None => go r
                                   end
                  end) props) ++ "}")
  end.

(** [JSON.stringify(v)]. *)
Definition json_stringify (v : jsval Num) : jsval Num :=
  match serialize v with
  | Some s => JStr s
  | None => JUndefined
  end.

Definition is_ws (c : ascii) : bool :=
  let n := nat_of_ascii c in (n =? 32) || (n =? 9) || (n =? 10) || (n =? 13).

Fixpoint skip_ws (s : string) : string :=
  match s with
  | EmptyString => EmptyString
  | String c r => if is_ws c then skip_ws r else s
  end.

(** Code units that may occur in a number token. *)
Definition num_char (c : ascii) : bool :=
  let n := nat_of_ascii c in
  ((48 <=? n) && (n <=? 57)) || (n =? 43) || (n =? 45) || (n =? 46) || (n =? 101) || (n =? 69).

Fixpoint span_num (s : string) : string * string :=
  match s with
  | EmptyString => (EmptyString, EmptyString)
  | String c r =>
      if num_char c then let '(tok, rest) := span_num r in (String c tok, rest)
      else (EmptyString, s)
  end.

Definition hex_value (c : ascii) : option nat :=
  let n := nat_of_ascii c in
  if (48 <=? n) && (n <=? 57) then Some (n - 48)
  else if (97 <=? n) && (n <=? 102) then Some (n - 87)
  else if (65 <=? n) && (n <=? 70) then Some (n - 55)
  else None.

(** The code unit of a [\uXXXX] escape; units above 255 are outside the
    8-bit string model and rejected. *)
Definition hex4 (a b c d : ascii) : option ascii :=
  match hex_value a, hex_value b, hex_value c, hex_value d with
  | Some x, Some y, Some z, Some w =>
      let n := ((x * 16 + y) * 16 + z) * 16 + w in
      if n <? 256 then Some (ascii_of_nat n) else None
  | _, _, _, _ => None
  end.

Definition simple_escape (e : ascii) : option ascii :=
  let n := nat_of_ascii e in
  if n =? 34 then Some dq
  else if n =? 92 then Some bs
  else if n =? 47 then Some "/"%char
  else if n =? 98 then Some (ascii_of_nat 8)
  else if n =? 102 then Some (ascii_of_nat 12)
  else if n =? 110 then Some (ascii_of_nat 10)
  else if n =? 114 then Some (ascii_of_nat 13)
  else if n =? 116 then Some (ascii_of_nat 9)
  else None.

Definition cons_fst (c : ascii) (x : option (string * string)) : option (string * string) :=
  match x with
  | Some (s, rest) => Some (String c s, rest)
  | None => None
  end.

(** The characters of a string literal after its opening quote, up to and
    without the closing one. *)
Fixpoint lex_string (s : string) : option (string * string) :=
  match s with
  | EmptyString => None
  | String c r =>
      if Ascii.eqb c dq then Some (EmptyString, r)
      else if Ascii.eqb c bs then
        match r with
        | EmptyString => None
        | String e r' =>
            match simple_escape e with
            | Some ch => cons_fst ch (lex_string r')
            | None =>
                if Ascii.eqb e "u" then
                  match r' with
                  | String h1 (String h2 (String h3 (String h4 r''))) =>
                      match hex4 h1 h2 h3 h4 with
                      | Some ch => cons_fst ch (lex_string r'')
                      | None => None
                      end
                  | _ => None
                  end
                else None
            end
        end
      else if nat_of_ascii c <? 32 then None
      else cons_fst c (lex_string r)
  end.

Fixpoint has_key (k : string) (props : list (string * jsval Num)) : bool :=
  match props with
  | [] => false
  | (k', _) :: r => String.eqb k k' || has_key k r
  end.

(** CreateDataProperty on the object being built: a repeated key keeps its
    position and takes the new value. *)
Fixpoint add_prop (props : list (string * jsval Num)) (k : string) (v : jsval Num)
    : list (string * jsval Num) :=
  match props with
  | [] => [(k, v)]
  | (k', v') :: r => if String.eqb k k' then (k', v) :: r else (k', v') :: add_prop r k v
  end.

Definition starts_with (c : ascii) (s : string) : option string :=
  match s with
  | String c' r => if Ascii.eqb c c' then Some r else None
  | EmptyString => None
  end.

(** A JSON value at the start of the text (after white space), with the
    rest of the text; [fuel] bounds the nesting of the calls. *)
Fixpoint parse_value (fuel : nat) (s : string) {struct fuel} : option (jsval Num * string) :=
  match fuel with
  | 0 => None
  | S f =>
      match skip_ws s with
      | EmptyString => None
      | String c r =>
          if Ascii.eqb c "n" then
            match r with
            | String "u" (String "l" (String "l" r')) => Some (JNull, r')
            | _ => None
            end
          else if Ascii.eqb c "t" then
            match r with
            | String "r" (String "u" (String "e" r')) => Some (JBool true, r')
            | _ => None
            end
          else if Ascii.eqb c "f" then
            match r with
            | String "a" (String "l" (String "s" (String "e" r'))) => Some (JBool false, r')
            | _ => None
            end
          else if Ascii.eqb c dq then
            match lex_string r with
            | Some (x, r') => Some (JStr x, r')
            | None => None
            end
          else if Ascii.eqb c "[" then
            match starts_with "]" (skip_ws r) with
            | Some r' => Some (JArr [], r')
            | None => parse_elements f r []
            end
          else if Ascii.eqb c "{" then
            match starts_with "}" (skip_ws r) with
            | Some r' => Some (JObj [], r')
            | None => parse_members f r []
            end
          else
            let '(tok, rest) := span_num (String c r) in
            match tok with
            | EmptyString => None
            | _ => match string_to_number tok with
                   | Some n => Some (JNum n, rest)
                   | None => None
                   end
            end
      end
  end
with parse_elements (fuel : nat) (s : string) (acc : list (jsval Num)) {struct fuel}
    : option (jsval Num * string) :=
  match fuel with
  | 0 => None
  | S f =>
      match parse_value f s with
      | None => None
      | Some (v, r) =>
          let r := skip_ws r in
          match starts_with "," r with
          | Some r' => parse_elements f r' (app acc [v])
          | None => match starts_with "]" r with
                    | Some r' => Some (JArr (app acc [v]), r')
                    | None => None
                    end
          end
      end
  end
with parse_members (fuel : nat) (s : string) (acc : list (string * jsval Num)) {struct fuel}
    : option (jsval Num * string) :=
  match fuel with
  | 0 => None
  | S f =>
      match starts_with dq (skip_ws s) with
      | None => None
      | Some r0 =>
          match lex_string r0 with
          | None => None
          | Some (k, r1) =>
              match starts_with ":" (skip_ws r1) with
              | None => None
              | Some r2 =>
                  match parse_value f r2 with
                  | None => None
                  | Some (v, r3) =>
                      let acc' := add_prop acc k v in
                      let r3 := skip_ws r3 in
                      match starts_with "," r3 with
                      | Some r4 => parse_members f r4 acc'
                      | None => match starts_with "}" r3 with
                                | Some r4 => Some (JObj acc', r4)
                                | None => None
                                end
                      end
                  end
              end
          end
      end
  end.

(** [JSON.parse] of a text: one value, then only white space. *)
Definition json_parse_text (s : string) : js_result (jsval Num) :=
  match parse_value (S (String.length s)) s with
  | Some (v, r) => if String.eqb (skip_ws r) "" then Ok v else Throw SyntaxError
  | None => Throw SyntaxError
  end.

(** ToString, applied by [JSON.parse] to its argument. *)
Fixpoint to_js_string (v : jsval Num) : string :=
  match v with
  | JUndefined => "undefined"
  | JNull => "null"
  | JBool b => if b then "true" else "false"
  | JNum n => num_to_string n
  | JStr s => s
  | JArr elems =>
      String.concat ","
        ((fix go (l : list (jsval Num)) : list string :=
            match l with
            | [] => []
            | e :: r => (if nullish e then "" else to_js_string e) :: go r
            end) elems)
  | JObj _ => "[object Object]"
  end.

Definition json_parse (v : jsval Num) : js_result (jsval Num) :=
  json_parse_text (to_js_string v).

(** The value an override line gives its field when the value at
    [fieldPath] is [v] (lines 69 and 71): [v && JSON.parse(v)] and
    [v && JSON.stringify(v)]; [&&] yields its left operand when that is
    falsy. *)
Definition decode_value (v : jsval Num) : js_result (jsval Num) :=
  if truthy v then json_parse v else Ok v.

Definition encode_value (v : jsval Num) : js_result (jsval Num) :=
  if truthy v then Ok (json_stringify v) else Ok v.

(** The structured values JSON represents: no [undefined], finite numbers,
    objects with distinct keys. *)
Fixpoint json_serializable (v : jsval Num) : bool :=
  match v with
  | JUndefined => false
  | JNull | JBool _ | JStr _ => true
  | JNum n => num_is_finite n
  | JArr elems =>
      (fix go (l : list (jsval Num)) : bool :=
         match l with
         | [] => true
         | e :: r => json_serializable e && go r
         end) elems
  | JObj props =>
      (fix go (l : list (string * jsval Num)) : bool :=
         match l with
         | [] => true
         | (k, e) :: r => negb (has_key k r) && json_serializable e && go r
         end) props
  end.

(** A number token as Number::toString renders it: only number characters. *)
Fixpoint all_num_chars (s : string) : bool :=
  match s with
  | EmptyString => true
  | String c r => num_char c && all_num_chars r
  end.

(** The text after a value does not continue a number token. *)
Definition no_num_start (s : string) : bool :=
  match s with
  | EmptyString => true
  | String c _ => negb (num_char c)
  end.

End JSON.

(* ------------------------------------------------------------------ *)
(** ** Induction principles, key annotation and sample inputs *)

(** Induction on shapes, with the hypothesis on every child. *)
Definition shape_ind' (P : shape -> Prop)
    (fS : forall m, P (Scalar m))
    (fO : forall kids, Forall (fun kv => P (snd kv)) kids -> P (Obj kids)) :
    forall t, P t :=
  fix F (t : shape) : P t :=
    match t with
    | Scalar m => fS m
    | Obj kids =>
        fO kids ((fix go (l : list (string * shape)) : Forall (fun kv => P (snd kv)) l :=
                    match l with
                    | [] => Forall_nil _
                    | (k, v) :: r => @Forall_cons _ (fun kv => P (snd kv)) (k, v) r (F v) (go r)
                    end) kids)
    end.

Definition annotate (base : string) (isArray isMandatory : bool) : string :=
  base ++ (if isArray then "[]" else "") ++ (if isMandatory then "!" else "").

Definition strip_list (kids : list (string * shape)) : list (string * shape) :=
  map (fun kv => (drop_bang (fst kv), strip_bangs (snd kv))) kids.

Definition statusOutput : OutputType :=
  {| fieldName := "getNode"; typeName := "Node";
     fields := Some (Obj [("status", Scalar "String")]) |}.

Definition payloadOutput : OutputType :=
  {| fieldName := "getNode"; typeName := "Node";
     fields := Some (Obj [("payload", Scalar AWSJSON)]) |}.

Definition jsonVariables : option (list (string * VariableType)) :=
  Some [("input", {| variableFields := Some (Obj [("data", Scalar AWSJSON)]) |})].

Definition idDataVariables : option (list (string * VariableType)) :=
  Some [("input", {| variableFields := Some (Obj [("id", Scalar "ID"); ("data", Scalar AWSJSON)]) |})].

Definition jsval_ind' {Num : Type} (P : jsval Num -> Prop)
    (fU : P JUndefined) (fN : P JNull) (fB : forall b, P (JBool b))
    (fn : forall n, P (JNum n)) (fS : forall s, P (JStr s))
    (fA : forall l, Forall P l -> P (JArr l))
    (fO : forall l, Forall (fun kv => P (snd kv)) l -> P (JObj l)) :
    forall v, P v :=
  fix F (v : jsval Num) : P v :=
    match v with
    | JUndefined => fU
    | JNull => fN
    | JBool b => fB b
    | JNum n => fn n
    | JStr s => fS s
    | JArr l =>
        fA l ((fix go (l : list (jsval Num)) : Forall P l :=
                 match l with
                 | [] => Forall_nil _
                 | e :: r => Forall_cons e (F e) (go r)
                 end) l)
    | JObj l =>
        fO l ((fix go (l : list (string * jsval Num)) : Forall (fun kv => P (snd kv)) l :=
                 match l with
                 | [] => Forall_nil _
                 | (k, e) :: r => @Forall_cons _ (fun kv => P (snd kv)) (k, e) r (F e) (go r)
                 end) l)
    end.

(** Decimal numbers on [nat]: a model of Number::toString and
    StringToNumber for the non-negative integers. *)
Definition nat_to_string (n : nat) : string := NilEmpty.string_of_uint (Nat.to_uint n).

Definition nat_of_string (s : string) : option nat :=
  option_map Nat.of_uint (NilEmpty.uint_of_string s).

Definition sampleJson : jsval nat :=
  JObj [("tags", JArr [JStr "a"; JNum 12; JNull; JBool false]);
        ("meta", JObj [("ok", JBool true); ("", JStr "")])].

(* ------------------------------------------------------------------ *)
(** ** Counting the nodes of a shape *)

(** The Scalar leaves carrying ['AWSJSON'] in a shape. *)
Fixpoint json_leaf_count (t : shape) : nat :=
  match t with
  | Scalar m => if String.eqb m AWSJSON then 1 else 0
  | Obj kids =>
      (fix go (l : list (string * shape)) : nat :=
         match l with
         | [] => 0
         | (_, v) :: r => json_leaf_count v + go r
         end) kids
  end.

(** The Object nodes of a shape, itself included. *)
Fixpoint object_count (t : shape) : nat :=
  match t with
  | Scalar _ => 0
  | Obj kids =>
      S ((fix go (l : list (string * shape)) : nat :=
            match l with
            | [] => 0
            | (_, v) :: r => object_count v + go r
            end) kids)
  end.

(** Two lines at the same position of the decode and encode outputs: the
    same line, or the two override lines of one field at one path. *)
Definition direction_twins (a b : string) : Prop :=
  a = b \/ exists fieldName fieldPath,
    [a] = jsonLine parse fieldName fieldPath /\ [b] = jsonLine stringify fieldName fieldPath.

(* ------------------------------------------------------------------ *)
(** ** The visitor ([ReactQueryVisitor], src/unnamed/part_000)

    The plugin configuration fields it reads, and its mutable state: the
    two identifier sets, JavaScript [Set]s kept in insertion order. *)

Record ReactQueryPluginConfig : Type := {
  omitOperationSuffix : bool;
  dedupeOperationSuffix : bool;
  useTypeImports : bool;
  addInfiniteQuery : bool;
  importOperationTypesFrom : option string
}.

Record ReactQueryVisitorState : Type := {
  reactQueryHookIdentifiersInUse : list string;
  reactQueryOptionsIdentifiersInUse : list string
}.

(** [Set.prototype.add]: a new element goes last, a present one stays. *)
Definition set_add (x : string) (s : list string) : list string :=
  if existsb (String.eqb x) s then s else app s [x].

(** [getImports] (lines 101-120); [baseImports] is [super.getImports()] and
    [collectedOperations] the length of [_collectedOperations]. *)
Definition getImports (config : ReactQueryPluginConfig) (baseImports : list string)
    (collectedOperations : nat) (st : ReactQueryVisitorState)
    : list string * ReactQueryVisitorState :=
  if negb (Nat.ltb 0 collectedOperations) then (baseImports, st)
  else
    let st :=
      if addInfiniteQuery config
      then {| reactQueryHookIdentifiersInUse := reactQueryHookIdentifiersInUse st;
              reactQueryOptionsIdentifiersInUse :=
                set_add "QueryFunctionContext" (reactQueryOptionsIdentifiersInUse st) |}
      else st in
    let hookAndTypeImports :=
      app (reactQueryHookIdentifiersInUse st)
        (map (fun identifier => (if useTypeImports config then "type " else "") ++ identifier)
           (reactQueryOptionsIdentifiersInUse st)) in
    (app baseImports
       ["import { " ++ String.concat ", " hookAndTypeImports ++ " } from 'react-query';"], st).


(** Assignment of a property on an object being built: a present key keeps
    its position and takes the new value, a new key goes last. *)
Fixpoint obj_set {A : Type} (o : list (string * A)) (k : string) (v : A)
    : list (string * A) :=
  match o with
  | [] => [(k, v)]
  | (k', v') :: r => if String.eqb k k' then (k', v) :: r else (k', v') :: obj_set r k v
  end.

(** [o[k]]. *)
Fixpoint obj_get {A : Type} (o : list (string * A)) (k : string) : option A :=
  match o with
  | [] => None
  | (k', v) :: r => if String.eqb k k' then Some v else obj_get r k
  end.

(** [{ ...acc, ...src }] for a [src] that may be [undefined]. *)
Definition spread_into {A : Type} (acc : list (string * A)) (src : option (list (string * A)))
    : list (string * A) :=
  match src with
  | None => acc
  | Some l => fold_left (fun o kv => obj_set o (fst kv) (snd kv)) l acc
  end.

(** [this.fields] (line 84): the query fields, then the mutation fields;
    either [getFields()] may be [undefined] through [?.]. *)
Definition visitorFields {A : Type} (queryFields mutationFields : option (list (string * A)))
    : list (string * A) :=
  spread_into (spread_into [] queryFields) mutationFields.

Section Visitor.
(** The libraries the visitor calls: [pascalCase], [lowerCaseFirst],
    [convertName] (with the suffix its options carry), the type resolver,
    the key makers and the fetcher.  [Node] is the AST of an operation and
    [FieldDef] a schema field. *)
Variable Node FieldDef : Type.
Variable nodeNameOf : Node -> option string.
Variables pascalCase lowerCaseFirst : string -> string.
Variable convertName : string -> string -> string.
Variable getOutputType : option FieldDef -> OutputType.
Variable getInputVariablesType : option FieldDef -> option (list (string * VariableType)).
Variable generateQueryKeyMaker : Node -> string -> string -> bool -> string.
Variable generateMutationKeyMaker : Node -> string -> string.
Variable generateFetcherFetch :
  Node -> string -> string -> string -> string -> bool -> string -> string -> string.

(** [_getHookSuffix] (lines 126-137). *)
Definition _getHookSuffix (config : ReactQueryPluginConfig) (name operationType : string)
    : string :=
  if omitOperationSuffix config then ""
  else if negb (dedupeOperationSuffix config) then pascalCase operationType
  else if includes "Query" name || includes "Mutation" name || includes "Subscription" name
  then ""
  else pascalCase operationType.

End Visitor.

(* ================================================================== *)
(** * Proofs *)

(** *** Strings *)

Lemma append_nil_r (s : string) : s ++ "" = s.
Proof. induction s; simpl; congruence. Qed.

Lemma append_assoc_s (a b c : string) : (a ++ b) ++ c = a ++ b ++ c.
Proof. induction a; simpl; congruence. Qed.

Lemma length_append_s (a b : string) : String.length (a ++ b) = String.length a + String.length b.
Proof. induction a; simpl; auto. Qed.

Lemma substring0_append (s t : string) : substring0 (String.length s) (s ++ t) = s.
Proof.
  unfold substring0. induction s; simpl.
  - destruct t; reflexivity.
  - rewrite IHs. reflexivity.
Qed.

Lemma substring0_length (s : string) : substring0 (String.length s) s = s.
Proof. rewrite <- (append_nil_r s) at 2. apply substring0_append. Qed.

Lemma prefix_refl (p : string) : prefix p p = true.
Proof.
  induction p as [|c p IH]; simpl; [reflexivity|].
  destruct (ascii_dec c c); [exact IH | congruence].
Qed.

Lemma prefix_app (p s t : string) : prefix p s = true -> prefix p (s ++ t) = true.
Proof.
  revert s. induction p as [|c p IH]; intros s H; [destruct (s ++ t); reflexivity|].
  destruct s as [|d s]; simpl in *; [discriminate|].
  destruct (ascii_dec c d); [apply IH; exact H | discriminate].
Qed.

Lemma prefix_nil (s : string) : prefix "" s = true.
Proof. destruct s; reflexivity. Qed.

Lemma prefix_cons (a b : ascii) (p s : string) :
  prefix (String a p) (String b s) = if ascii_dec a b then prefix p s else false.
Proof. reflexivity. Qed.

Lemma includes_cons (p : string) (c : ascii) (s : string) :
  includes p (String c s) = prefix p (String c s) || includes p s.
Proof. reflexivity. Qed.

Lemma includes_bang_append (s t : string) :
  includes "!" (s ++ t) = includes "!" s || includes "!" t.
Proof.
  induction s as [|c s IH]; [reflexivity|].
  simpl append. rewrite !includes_cons, IH.
  rewrite !prefix_cons. destruct (ascii_dec "!" c); rewrite ?prefix_nil; reflexivity.
Qed.

Lemma includes_brackets_bang (s : string) : includes "[]" (s ++ "!") = includes "[]" s.
Proof.
  induction s as [|c s IH]; [reflexivity|].
  simpl append. rewrite !includes_cons, IH. f_equal.
  rewrite !prefix_cons. destruct (ascii_dec "[" c); [|reflexivity].
  destruct s as [|d s]; [reflexivity|].
  simpl append. rewrite !prefix_cons. destruct (ascii_dec "]" d); rewrite ?prefix_nil; reflexivity.
Qed.

Lemma includes_suffix (p s : string) : includes p (s ++ p) = true.
Proof.
  induction s as [|c s IH].
  - destruct p as [|c p]; [reflexivity|].
    simpl append. rewrite includes_cons, prefix_refl. reflexivity.
  - simpl append. rewrite includes_cons, IH. apply orb_true_r.
Qed.

(** *** Annotated keys *)

Lemma parseFieldKey_annotate (base : string) (isArray isMandatory : bool) :
  includes "!" base = false -> includes "[]" base = false ->
  key_fieldName (parseFieldKey (annotate base isArray isMandatory)) = base /\
  key_isMandatory (parseFieldKey (annotate base isArray isMandatory)) = isMandatory /\
  key_isArray (parseFieldKey (annotate base isArray isMandatory)) = isArray.
Proof.
  intros Hb Hbr. unfold annotate, parseFieldKey; cbn [key_fieldName key_isMandatory key_isArray].
  destruct isArray, isMandatory.
  - rewrite <- append_assoc_s.
    rewrite includes_bang_append, orb_true_r, includes_brackets_bang, includes_suffix.
    rewrite length_append_s, Nat.add_sub, substring0_append.
    rewrite length_append_s, Nat.add_sub, substring0_append. auto.
  - rewrite append_nil_r, includes_bang_append, Hb, includes_suffix.
    change (includes "!" "[]") with false. cbn [orb].
    rewrite length_append_s, Nat.add_sub, substring0_append. auto.
  - change ("" ++ "!") with "!".
    rewrite includes_bang_append, Hb, includes_brackets_bang, Hbr.
    rewrite length_append_s, Nat.add_sub, substring0_append. auto.
  - change ("" ++ "") with "". rewrite append_nil_r, Hb, Hbr. auto.
Qed.

(** *** The builder *)

Lemma fieldLines_Obj (field : string) (sub : list (string * shape)) (path : string)
    (t : transformer) :
  fieldLines field (Obj sub) path t =
  let k := parseFieldKey field in
  let fieldName := key_fieldName k in
  let fieldNameSingular := key_fieldNameSingular k in
  let fieldPath := path ++ "." ++ fieldName in
  if key_isArray k then
    app [fieldName ++ ": " ++ fieldPath ++ "?.map((" ++ fieldNameSingular ++ ") => ({";
         "..." ++ fieldNameSingular ++ ","]
      (app (transformJsonFields sub (fieldNameSingular ++ "?") t) ["}))," ])
  else
    app [fieldName ++ ": {"; "..." ++ fieldPath ++ ","]
      (app (transformJsonFields sub (fieldPath ++ "?") t) ["},"]).
Proof.
  assert (E : forall l p,
    (fix go (l : list (string * shape)) (p : string) : list string :=
       match l with
       | [] => []
       | (f, v) :: r => app (fieldLines f v p t) (go r p)
       end) l p = transformJsonFields l p t).
  { induction l as [|[f v] r IH]; intros p; simpl; [reflexivity|]. rewrite IH. reflexivity. }
  cbn [fieldLines]. rewrite !E. reflexivity.
Qed.

Lemma fieldLines_Scalar (field m path : string) (t : transformer) :
  fieldLines field (Scalar m) path t =
  if String.eqb m AWSJSON
  then jsonLine t (key_fieldName (parseFieldKey field))
         (path ++ "." ++ key_fieldName (parseFieldKey field))
  else [].
Proof. reflexivity. Qed.

(** *** The detector *)

Lemma existsb_map {A B : Type} (f : B -> bool) (g : A -> B) (l : list A) :
  existsb f (map g l) = existsb (fun x => f (g x)) l.
Proof. induction l as [|x l IH]; simpl; [reflexivity|]. rewrite IH. reflexivity. Qed.

Lemma ltb_length_filter (l : list bool) :
  Nat.ltb 0 (List.length (filter (fun b => b) l)) = existsb (fun b => b) l.
Proof. induction l as [|[] l IH]; simpl; auto. Qed.

Lemma hasJsonFields_value_Obj (sub : list (string * shape)) :
  hasJsonFields_value (Obj sub) = existsb (fun kv => hasJsonFields_value (snd kv)) sub.
Proof.
  assert (E : forall l,
    (fix go (l : list (string * shape)) : list bool :=
       match l with
       | [] => []
       | (_, v) :: r => hasJsonFields_value v :: go r
       end) l = map (fun kv => hasJsonFields_value (snd kv)) l).
  { induction l as [|[k v] r IH]; simpl; [reflexivity|]. rewrite IH. reflexivity. }
  cbn [hasJsonFields_value]. rewrite E, ltb_length_filter, existsb_map. reflexivity.
Qed.

Lemma hasJsonFields_Obj (kids : list (string * shape)) :
  hasJsonFields (Some (Obj kids)) = hasJsonFields_value (Obj kids).
Proof.
  rewrite hasJsonFields_value_Obj. unfold hasJsonFields, hasJsonFields_shape, hasJsonFields_entries.
  cbn [truthy_shape negb entries]. rewrite ltb_length_filter, existsb_map. reflexivity.
Qed.

Lemma string_entries_no_json (i : nat) (s : string) :
  existsb (fun kv => hasJsonFields_value (snd kv)) (string_entries_from i s) = false.
Proof.
  revert i. induction s as [|c s IH]; intros i; [reflexivity|].
  cbn [string_entries_from existsb snd hasJsonFields_value]. rewrite IH, orb_false_r.
  unfold AWSJSON. cbn [String.eqb]. apply andb_false_r.
Qed.

Lemma hasJsonFields_Scalar (m : string) : hasJsonFields (Some (Scalar m)) = false.
Proof.
  unfold hasJsonFields, hasJsonFields_shape, hasJsonFields_entries.
  destruct (truthy_shape (Scalar m)); [|reflexivity]. cbn [negb entries].
  rewrite ltb_length_filter, existsb_map. apply string_entries_no_json.
Qed.

Lemma hasJsonFields_value_spec (v : shape) :
  hasJsonFields_value v = true <-> json_leaf_reachable v.
Proof.
  induction v as [m|kids IH] using shape_ind'.
  - cbn [hasJsonFields_value]. rewrite String.eqb_eq. split.
    + intros ->. constructor.
    + intros H. inversion H. reflexivity.
  - rewrite hasJsonFields_value_Obj, existsb_exists. split.
    + intros [[k v] [Hin Hv]]. apply (jlr_below kids k v Hin).
      rewrite Forall_forall in IH. apply (IH (k, v) Hin). exact Hv.
    + intros H. inversion H as [|kids' k v Hin Hr]; subst.
      exists (k, v). split; [exact Hin|].
      rewrite Forall_forall in IH. apply (IH (k, v) Hin). exact Hr.
Qed.

Lemma hasJsonFields_value_erase (v : shape) :
  hasJsonFields_value (erase_keys v) = hasJsonFields_value v.
Proof.
  induction v as [m|kids IH] using shape_ind'; [reflexivity|].
  cbn [erase_keys]. rewrite !hasJsonFields_value_Obj.
  induction kids as [|[k v] r IHr]; [reflexivity|].
  inversion IH as [|? ? Hv Hr]; subst. cbn [snd] in Hv. cbn [existsb snd]. rewrite Hv. f_equal. apply IHr, Hr.
Qed.

Lemma hasJsonFields_erase (t : shape) :
  hasJsonFields (Some (erase_keys t)) = hasJsonFields (Some t).
Proof.
  destruct t as [m|kids]; [reflexivity|].
  assert (El : exists l, erase_keys (Obj kids) = Obj l) by (eexists; reflexivity).
  destruct El as [l El].
  rewrite El, !hasJsonFields_Obj, <- El. apply hasJsonFields_value_erase.
Qed.

(** *** Mandatory markers *)

Lemma drop_bang_cases (k : string) : k = drop_bang k ++ "!" \/ k = drop_bang k.
Proof.
  induction k as [|c r IH]; [right; reflexivity|].
  destruct r as [|d r'].
  - cbn [drop_bang]. destruct (Ascii.eqb c "!") eqn:E.
    + left. apply Ascii.eqb_eq in E. subst. reflexivity.
    + right. reflexivity.
  - change (drop_bang (String c (String d r'))) with (String c (drop_bang (String d r'))).
    destruct IH as [IH|IH]; [left|right]; cbn [append]; congruence.
Qed.

Lemma parseFieldKey_bang (b : string) : includes "!" b = false ->
  key_fieldName (parseFieldKey (b ++ "!")) = key_fieldName (parseFieldKey b) /\
  key_isArray (parseFieldKey (b ++ "!")) = key_isArray (parseFieldKey b) /\
  key_fieldNameSingular (parseFieldKey (b ++ "!")) = key_fieldNameSingular (parseFieldKey b).
Proof.
  intros Hb. unfold parseFieldKey; cbn [key_fieldName key_isArray key_fieldNameSingular].
  rewrite includes_bang_append, orb_true_r, Hb, includes_brackets_bang.
  rewrite length_append_s, Nat.add_sub, substring0_append. auto.
Qed.

Lemma parseFieldKey_drop_bang (k : string) : key_wf k = true ->
  key_fieldName (parseFieldKey k) = key_fieldName (parseFieldKey (drop_bang k)) /\
  key_isArray (parseFieldKey k) = key_isArray (parseFieldKey (drop_bang k)) /\
  key_fieldNameSingular (parseFieldKey k) = key_fieldNameSingular (parseFieldKey (drop_bang k)).
Proof.
  unfold key_wf. intros Hk. apply negb_true_iff in Hk.
  destruct (drop_bang_cases k) as [E|E];
    remember (drop_bang k) as b eqn:Eb; clear Eb; subst k.
  - apply parseFieldKey_bang, Hk.
  - auto.
Qed.

Lemma fieldLines_same_key (k k' : string) (v : shape) (p : string) (t : transformer) :
  key_fieldName (parseFieldKey k) = key_fieldName (parseFieldKey k') ->
  key_isArray (parseFieldKey k) = key_isArray (parseFieldKey k') ->
  key_fieldNameSingular (parseFieldKey k) = key_fieldNameSingular (parseFieldKey k') ->
  fieldLines k v p t = fieldLines k' v p t.
Proof.
  intros H1 H2 H3. destruct v as [m|sub].
  - rewrite !fieldLines_Scalar, H1. reflexivity.
  - rewrite !fieldLines_Obj. cbv zeta. rewrite H1, H2, H3. reflexivity.
Qed.

Lemma strip_bangs_Obj (kids : list (string * shape)) :
  strip_bangs (Obj kids) = Obj (strip_list kids).
Proof.
  cbn [strip_bangs]. f_equal. unfold strip_list.
  induction kids as [|[k v] r IH]; simpl; [reflexivity|]. rewrite IH. reflexivity.
Qed.

Lemma shape_wf_Obj (kids : list (string * shape)) :
  shape_wf (Obj kids) = forallb (fun kv => key_wf (fst kv) && shape_wf (snd kv)) kids.
Proof.
  cbn [shape_wf]. induction kids as [|[k v] r IH]; simpl; [reflexivity|].
  rewrite IH. reflexivity.
Qed.

Lemma transformJsonFields_strip_bangs :
  forall v : shape, shape_wf v = true ->
  forall k p t, key_wf k = true ->
  fieldLines k v p t = fieldLines (drop_bang k) (strip_bangs v) p t.
Proof.
  intros v. induction v as [m|sub IH] using shape_ind'; intros Hwf k p t Hk.
  - apply fieldLines_same_key; apply parseFieldKey_drop_bang, Hk.
  - rewrite (fieldLines_same_key k (drop_bang k)) by (apply parseFieldKey_drop_bang, Hk).
    rewrite strip_bangs_Obj, !fieldLines_Obj. cbv zeta.
    assert (E : forall q, transformJsonFields sub q t = transformJsonFields (strip_list sub) q t).
    { rewrite shape_wf_Obj in Hwf. clear k Hk p.
      induction sub as [|[k1 v1] r IHr]; intros q; [reflexivity|].
      inversion IH as [|? ? Hv Hr]; subst. cbn [forallb fst snd] in Hwf, Hv.
      apply andb_true_iff in Hwf as [Hkv Hrest]. apply andb_true_iff in Hkv as [Hk1 Hv1].
      cbn [strip_list map fst snd transformJsonFields]. unfold strip_list in IHr.
      rewrite (Hv Hv1 k1 q t Hk1), (IHr Hr Hrest q). reflexivity. }
    rewrite !E. reflexivity.
Qed.

Lemma transformJsonFields_strip_list (kids : list (string * shape)) (p : string)
    (t : transformer) :
  children_wf kids = true ->
  transformJsonFields kids p t = transformJsonFields (strip_list kids) p t.
Proof.
  unfold children_wf. rewrite shape_wf_Obj. intros Hwf.
  induction kids as [|[k v] r IH]; [reflexivity|].
  cbn [forallb fst snd] in Hwf.
  apply andb_true_iff in Hwf as [Hkv Hrest]. apply andb_true_iff in Hkv as [Hk Hv].
  cbn [strip_list map fst snd transformJsonFields].
  rewrite (transformJsonFields_strip_bangs v Hv k p t Hk), (IH Hrest). reflexivity.
Qed.

(* ================================================================== *)
(** * The claims *)

(** C3 (refuted as stated): a bare Scalar node carrying the JSON-text marker
    is a reachable JSON leaf, yet [hasJsonFields] returns [false] on it: it
    enumerates the characters of the string instead of inspecting it. *)
Lemma C3_scalar_root_counterexample :
  json_leaf_reachable (Scalar AWSJSON) /\ hasJsonFields (Some (Scalar AWSJSON)) = false.
Proof. split; [constructor | reflexivity]. Qed.

(** C3 (amended): on a children mapping (an Object node), [hasJsonFields] is
    true exactly when a Scalar leaf carrying ['AWSJSON'] is reachable below
    it; on [undefined] it is false, and on a bare Scalar node it is false
    whatever the marker. *)
Theorem C3_hasJsonFields_reachable :
  (forall kids : list (string * shape),
     hasJsonFields (Some (Obj kids)) = true <-> json_leaf_reachable (Obj kids)) /\
  hasJsonFields None = false /\
  (forall m : string, hasJsonFields (Some (Scalar m)) = false).
Proof.
  split; [|split].
  - intros kids. rewrite hasJsonFields_Obj. apply hasJsonFields_value_spec.
  - reflexivity.
  - apply hasJsonFields_Scalar.
Qed.

(** C4: without JSON fields the output transformer's body is the destructured
    root field cast to the result type; with JSON fields it is the root field
    guarded by [&&], spread into a fresh object together with the decode
    lines the builder produces for the output shape's children. *)
Theorem C4_output_body :
  forall (operationName operationVariablesTypes operationResultType : string)
         (hasRequiredVariables : bool) (outputType : OutputType),
  let fn := fieldName outputType in
  let tn := typeName outputType in
  let header := nl ++ outputComment operationName fn tn operationResultType ++ nl
                ++ "export const " ++ operationName ++ "Output = ({ " ++ fn ++ " }: "
                ++ operationResultType ++ ") => " in
  (hasJsonFields (fields outputType) = false ->
   generateOutputTransformer operationName operationVariablesTypes operationResultType
     hasRequiredVariables outputType
   = header ++ (fn ++ " as " ++ tn) ++ ";") /\
  (hasJsonFields (fields outputType) = true ->
   exists kids, fields outputType = Some (Obj kids) /\
   generateOutputTransformer operationName operationVariablesTypes operationResultType
     hasRequiredVariables outputType
   = header ++ (fn ++ " && ({..." ++ fn ++ ", "
                ++ String.concat nl (transformJsonFields kids fn parse)
                ++ " }) as " ++ tn) ++ ";").
Proof.
  intros op vt rt hrv ot fn tn header. unfold header, fn, tn. split; intros H.
  - unfold generateOutputTransformer. rewrite H.
    rewrite !append_assoc_s. reflexivity.
  - destruct (fields ot) as [[m|kids]|] eqn:Ef.
    + rewrite hasJsonFields_Scalar in H. discriminate.
    + exists kids. split; [reflexivity|].
      unfold generateOutputTransformer. rewrite Ef, H. rewrite !append_assoc_s. reflexivity.
    + discriminate.
Qed.

(** C5: on an empty variables mapping the input transformer is a
    zero-parameter function returning [undefined], and the emitted text does
    not depend on [hasRequiredVariables]. *)
Theorem C5_empty_variables :
  forall (operationName operationVariablesTypes operationResultType : string)
         (hasRequiredVariables : bool),
  generateInputTransformer operationName operationVariablesTypes operationResultType
    hasRequiredVariables (Some [])
  = Ok (nl ++ inputComment operationName operationVariablesTypes false ++ nl
        ++ "export const " ++ operationName ++ "Input = () => undefined;") /\
  (forall b : bool,
     generateInputTransformer operationName operationVariablesTypes operationResultType
       hasRequiredVariables (Some [])
     = generateInputTransformer operationName operationVariablesTypes operationResultType
         b (Some [])).
Proof. intros. split; [reflexivity | intros b; reflexivity]. Qed.

(** C6: an array-marked Object child becomes [name: path.name?.map((elem) =>
    ({ ...elem, <lines> }))], the lines being the builder's output for the
    child's children against the path [elem?]; the remaining entries follow. *)
Theorem C6_array_child :
  forall (field : string) (sub rest : list (string * shape)) (path : string)
         (t : transformer),
  key_isArray (parseFieldKey field) = true ->
  let fieldName := key_fieldName (parseFieldKey field) in
  let elem := key_fieldNameSingular (parseFieldKey field) in
  transformJsonFields ((field, Obj sub) :: rest) path t =
  app (app [fieldName ++ ": " ++ (path ++ "." ++ fieldName) ++ "?.map((" ++ elem ++ ") => ({";
            "..." ++ elem ++ ","]
           (app (transformJsonFields sub (elem ++ "?") t) ["}))," ]))
      (transformJsonFields rest path t).
Proof.
  intros field sub rest path t H fieldName elem.
  cbn [transformJsonFields]. rewrite fieldLines_Obj. cbv zeta. rewrite H. reflexivity.
Qed.

(** C7: on an annotated key [base], [base!], [base[]] or [base[]!] (the base
    name holding neither ['!'] nor ['[]']) the builder recovers the base
    name and both flags, derives the element variable by dropping the last
    character, and builds the child path from the base name; in particular
    ["tags[]!"] gives ["tags"] with both flags set. *)
Theorem C7_annotated_keys :
  (forall (base : string) (isArray isMandatory : bool),
   includes "!" base = false -> includes "[]" base = false ->
   let k := parseFieldKey (annotate base isArray isMandatory) in
   key_fieldName k = base /\ key_isMandatory k = isMandatory /\ key_isArray k = isArray /\
   key_fieldNameSingular k = substring0 (String.length base - 1) base /\
   (forall path t, fieldLines (annotate base isArray isMandatory) (Scalar AWSJSON) path t
                   = jsonLine t base (path ++ "." ++ base))) /\
  parseFieldKey "tags[]!" =
  {| key_fieldName := "tags"; key_isMandatory := true; key_isArray := true;
     key_fieldNameSingular := "tag" |}.
Proof.
  split; [|reflexivity].
  intros base arr mand Hb Hbr k.
  destruct (parseFieldKey_annotate base arr mand Hb Hbr) as [H1 [H2 H3]].
  unfold k. split; [exact H1|]. split; [exact H2|]. split; [exact H3|]. split.
  - unfold parseFieldKey at 1. cbn [key_fieldNameSingular].
    unfold parseFieldKey in H1. cbn [key_fieldName] in H1. rewrite H1. reflexivity.
  - intros path t. rewrite fieldLines_Scalar, H1. reflexivity.
Qed.

(** C9: the input emitter throws a [TypeError] when the variables mapping is
    [null] or [undefined], and returns text for every object mapping. *)
Theorem C9_input_total_on_objects :
  (forall operationName operationVariablesTypes operationResultType hasRequiredVariables,
     generateInputTransformer operationName operationVariablesTypes operationResultType
       hasRequiredVariables None = Throw TypeError) /\
  (forall operationName operationVariablesTypes operationResultType hasRequiredVariables
          (variablesType : list (string * VariableType)),
     exists text, generateInputTransformer operationName operationVariablesTypes
                    operationResultType hasRequiredVariables (Some variablesType) = Ok text).
Proof. split; intros; [reflexivity | eexists; reflexivity]. Qed.

(** C10: the builder's lines are unchanged when keys differ only by a
    trailing mandatory marker (the keys having no other ['!']), and the
    detector's verdict is unchanged by any renaming of keys. *)
Theorem C10_names_do_not_matter :
  (forall (kids1 kids2 : list (string * shape)) (path : string) (t : transformer),
     children_wf kids1 = true -> children_wf kids2 = true ->
     strip_bangs (Obj kids1) = strip_bangs (Obj kids2) ->
     transformJsonFields kids1 path t = transformJsonFields kids2 path t) /\
  (forall t1 t2 : shape, erase_keys t1 = erase_keys t2 ->
     hasJsonFields (Some t1) = hasJsonFields (Some t2)).
Proof.
  split.
  - intros kids1 kids2 path t W1 W2 E.
    rewrite !strip_bangs_Obj in E. injection E as E.
    rewrite (transformJsonFields_strip_list kids1 path t W1),
            (transformJsonFields_strip_list kids2 path t W2), E.
    reflexivity.
  - intros t1 t2 E. rewrite <- (hasJsonFields_erase t1), <- (hasJsonFields_erase t2), E.
    reflexivity.
Qed.

(** *** Witnesses *)

Lemma C4_output_body_witness :
  generateOutputTransformer "GetNode" "GetNodeQueryVariables" "GetNodeQuery" true statusOutput
  = nl ++ outputComment "GetNode" "getNode" "Node" "GetNodeQuery" ++ nl
    ++ "export const GetNodeOutput = ({ getNode }: GetNodeQuery) => getNode as Node;" /\
  exists kids, fields payloadOutput = Some (Obj kids) /\
  generateOutputTransformer "GetNode" "GetNodeQueryVariables" "GetNodeQuery" true payloadOutput
  = nl ++ outputComment "GetNode" "getNode" "Node" "GetNodeQuery" ++ nl
    ++ "export const GetNodeOutput = ({ getNode }: GetNodeQuery) => getNode && ({...getNode, "
    ++ String.concat nl (transformJsonFields kids "getNode" parse) ++ " }) as Node;".
Proof.
  split.
  - rewrite (proj1 (C4_output_body "GetNode" "GetNodeQueryVariables" "GetNodeQuery" true
                      statusOutput) eq_refl).
    vm_compute. reflexivity.
  - destruct (proj2 (C4_output_body "GetNode" "GetNodeQueryVariables" "GetNodeQuery" true
                       payloadOutput) eq_refl) as [kids [Hk E]].
    exists kids. split; [exact Hk|]. rewrite E. injection Hk as <-.
    vm_compute. reflexivity.
Defined.

Lemma C6_array_child_witness :
  transformJsonFields [("items[]", Obj [("meta", Scalar AWSJSON)])] "getNode" parse =
  ["items: getNode.items?.map((item) => ({"; "...item,";
   "meta: item?.meta && JSON.parse(item?.meta as unknown as string),"; "})),"].
Proof.
  rewrite (C6_array_child "items[]" [("meta", Scalar AWSJSON)] [] "getNode" parse);
    reflexivity.
Defined.

Lemma C7_annotated_keys_witness :
  key_fieldName (parseFieldKey (annotate "tags" true true)) = "tags" /\
  key_fieldNameSingular (parseFieldKey (annotate "tags" true true)) = "tag".
Proof.
  destruct (proj1 C7_annotated_keys "tags" true true eq_refl eq_refl)
    as [H1 [_ [_ [H4 _]]]].
  split; [exact H1 | rewrite H4; reflexivity].
Defined.

Lemma C10_names_do_not_matter_witness :
  transformJsonFields [("payload!", Scalar AWSJSON); ("items[]!", Obj [("meta!", Scalar AWSJSON)])]
    "getNode" parse =
  transformJsonFields [("payload", Scalar AWSJSON); ("items[]", Obj [("meta", Scalar AWSJSON)])]
    "getNode" parse /\
  hasJsonFields (Some (Obj [("a", Scalar AWSJSON)])) =
  hasJsonFields (Some (Obj [("b", Scalar AWSJSON)])).
Proof.
  split.
  - apply (proj1 C10_names_do_not_matter); vm_compute; reflexivity.
  - apply (proj2 C10_names_do_not_matter); reflexivity.
Defined.

(** *** The input emitter at concrete variables *)

(** C1 (defect): for the variables [{ input: { fields: { data: 'AWSJSON' } } }]
    the input transformer reads [variables.input.data] with plain member
    accesses; with [input] absent (or [variables] itself undefined, which its
    optional parameter allows) that access throws a [TypeError], whereas the
    safe-navigation form used below the top level gives [undefined]. *)
Theorem C1_input_access_not_null_safe :
  exists text,
    generateInputTransformer "UpdateNode" "UpdateNodeMutationVariables" "UpdateNodeMutation"
      false jsonVariables = Ok text /\
    includes "input: { data: variables.input.data && JSON.stringify(variables.input.data" text
      = true /\
    includes "variables?.input" text = false /\
    @eval_path nat [("variables", JObj [])] "variables.input.data" = Throw TypeError /\
    @eval_path nat [("variables", JUndefined)] "variables.input.data" = Throw TypeError /\
    @eval_path nat [("variables", JObj [])] "variables?.input?.data" = Ok JUndefined.
Proof. eexists. split; [reflexivity|]. vm_compute. repeat split. Qed.

(** C2 (defect): for the variables [{ input: { fields: { id: 'ID', data:
    'AWSJSON' } } }] the per-variable override object is [{ data: ... }]
    alone: it does not spread [variables.input], so [input.id] is dropped,
    whereas the builder's own nested objects spread their original value. *)
Theorem C2_variable_override_without_spread :
  exists text,
    generateInputTransformer "UpdateNode" "UpdateNodeMutationVariables" "UpdateNodeMutation"
      true idDataVariables = Ok text /\
    includes ("input: { data: variables.input.data && JSON.stringify(variables.input.data"
              ++ " as unknown as Record<string, any>), },") text = true /\
    includes "...variables.input" text = false /\
    includes "...variables.input,"
      (String.concat nl (transformJsonFields
         [("input", Obj [("id", Scalar "ID"); ("data", Scalar AWSJSON)])] "variables" stringify))
      = true.
Proof. eexists. split; [reflexivity|]. vm_compute. repeat split. Qed.

(** *** [JSON.parse] inverts [JSON.stringify] *)

Lemma escape_char_lex (c : ascii) (x : string) :
  lex_string (escape_char c ++ x) = cons_fst c (lex_string x).
Proof. destruct c as [[] [] [] [] [] [] [] []]; reflexivity. Qed.

Lemma escape_string_lex (s x : string) :
  lex_string (escape_string s ++ char_s dq ++ x) = Some (s, x).
Proof.
  induction s as [|c s IH]; [reflexivity|].
  cbn [escape_string]. rewrite append_assoc_s, escape_char_lex, IH. reflexivity.
Qed.

Lemma quote_lex (s x : string) :
  starts_with dq (quote s ++ x) = Some (escape_string s ++ char_s dq ++ x) /\
  lex_string (escape_string s ++ char_s dq ++ x) = Some (s, x).
Proof.
  split; [|apply escape_string_lex].
  unfold quote. cbn [append starts_with]. rewrite Ascii.eqb_refl, append_assoc_s. reflexivity.
Qed.

Lemma span_num_token (tok rest : string) :
  all_num_chars tok = true -> no_num_start rest = true ->
  span_num (tok ++ rest) = (tok, rest).
Proof.
  intros Ht Hr. induction tok as [|c tok IH].
  - destruct rest as [|c r]; [reflexivity|].
    cbn [no_num_start] in Hr. cbn [append span_num].
    apply negb_true_iff in Hr. rewrite Hr. reflexivity.
  - cbn [all_num_chars] in Ht. apply andb_true_iff in Ht as [Hc Ht].
    cbn [append span_num]. rewrite Hc, (IH Ht). reflexivity.
Qed.

Lemma num_char_special (c : ascii) : num_char c = true ->
  is_ws c = false /\ Ascii.eqb c "n" = false /\ Ascii.eqb c "t" = false /\
  Ascii.eqb c "f" = false /\ Ascii.eqb c dq = false /\ Ascii.eqb c "[" = false /\
  Ascii.eqb c "{" = false /\ Ascii.eqb c "]" = false /\ Ascii.eqb c "}" = false.
Proof.
  destruct c as [[] [] [] [] [] [] [] []]; intros H; try discriminate H;
    repeat split; reflexivity.
Qed.

Lemma has_key_app {Num : Type} (k : string) (a b : list (string * jsval Num)) :
  has_key k (app a b) = has_key k a || has_key k b.
Proof. induction a as [|[k' v'] a IH]; simpl; [reflexivity|]. rewrite IH, orb_assoc. reflexivity. Qed.

Lemma add_prop_fresh {Num : Type} (acc : list (string * jsval Num)) (k : string) (v : jsval Num) :
  has_key k acc = false -> add_prop acc k v = app acc [(k, v)].
Proof.
  induction acc as [|[k' v'] r IH]; intros H; [reflexivity|].
  cbn [has_key] in H. apply orb_false_iff in H as [H1 H2].
  cbn [add_prop]. rewrite H1, (IH H2). reflexivity.
Qed.

Lemma skip_ws_nows (c : ascii) (r : string) : is_ws c = false -> skip_ws (String c r) = String c r.
Proof. intros H. cbn [skip_ws]. rewrite H. reflexivity. Qed.

Section RoundTrip.
Context {Num : Type}.
Variable num_to_string : Num -> string.
Variable string_to_number : string -> option Num.
Variables num_is_finite num_truthy : Num -> bool.

(** Number::toString renders a finite number as a non-empty token of number
    characters, which reads back as the same number. *)
Hypothesis num_token : forall n, num_is_finite n = true ->
  num_to_string n <> "" /\ all_num_chars (num_to_string n) = true.
Hypothesis num_roundtrip : forall n, num_is_finite n = true ->
  string_to_number (num_to_string n) = Some n.

Local Abbreviation ser := (serialize num_to_string num_is_finite).
Local Abbreviation sval e := (match serialize num_to_string num_is_finite e with
                          | Some x => x
                          | None => "null"
                          end).
Local Abbreviation okv := (json_serializable num_is_finite).

Lemma serialize_JArr (l : list (jsval Num)) :
  ser (JArr l) = Some ("[" ++ String.concat "," (map (fun e => sval e) l) ++ "]").
Proof.
  cbn [serialize].
  assert (E : forall l0, (fix go (l0 : list (jsval Num)) : list string :=
                            match l0 with
                            | [] => []
                            | e :: r => sval e :: go r
                            end) l0 = map (fun e => sval e) l0).
  { induction l0 as [|e r IH]; [reflexivity|]. cbn [map]. rewrite <- IH. reflexivity. }
  rewrite E. reflexivity.
Qed.

Lemma serialize_JObj (l : list (string * jsval Num)) :
  forallb (fun kv => okv (snd kv)) l = true ->
  ser (JObj l) =
  Some ("{" ++ String.concat "," (map (fun kv => quote (fst kv) ++ ":" ++ sval (snd kv)) l) ++ "}").
Proof.
  intros H. cbn [serialize].
  assert (E : forall l0, forallb (fun kv => okv (snd kv)) l0 = true ->
    (fix go (l : list (string * jsval Num)) : list string :=
       match l with
       | [] => []
       | (k, e) :: r => match ser e with
                        | Some x => (quote k ++ ":" ++ x) :: go r
                        | None => go r
                        end
       end) l0 = map (fun kv => quote (fst kv) ++ ":" ++ sval (snd kv)) l0).
  { induction l0 as [|[k e] r IH]; intros H0; [reflexivity|].
    cbn [forallb fst snd] in H0. apply andb_true_iff in H0 as [He Hr].
    cbn [map fst snd]. rewrite <- (IH Hr).
    destruct e; try discriminate He; reflexivity. }
  rewrite (E l H). reflexivity.
Qed.

Lemma okv_JArr_cons (e : jsval Num) (r : list (jsval Num)) :
  okv (JArr (e :: r)) = okv e && okv (JArr r).
Proof. reflexivity. Qed.

Lemma okv_JObj_cons (k : string) (e : jsval Num) (r : list (string * jsval Num)) :
  okv (JObj ((k, e) :: r)) = negb (has_key k r) && okv e && okv (JObj r).
Proof. reflexivity. Qed.

Lemma okv_JObj_values (l : list (string * jsval Num)) :
  okv (JObj l) = true -> forallb (fun kv => okv (snd kv)) l = true.
Proof.
  induction l as [|[k e] r IH]; intros H; [reflexivity|].
  rewrite okv_JObj_cons in H. apply andb_true_iff in H as [H Hr].
  apply andb_true_iff in H as [_ He]. cbn [forallb snd]. rewrite He, (IH Hr). reflexivity.
Qed.

(** A serialised value starts with a character that is neither white space
    nor a closing bracket. *)
Lemma serialize_head (v : jsval Num) (x : string) :
  okv v = true -> ser v = Some x ->
  exists c x', x = String c x' /\ is_ws c = false /\
               Ascii.eqb c "]" = false /\ Ascii.eqb c "}" = false.
Proof.
  intros Hv Hx. destruct v as [| |b|n|s|l|l].
  - discriminate Hv.
  - injection Hx as <-. eexists _, _. split; [reflexivity|]. auto.
  - injection Hx as <-. destruct b; eexists _, _; (split; [reflexivity|]); auto.
  - cbn [serialize] in Hx. cbn [json_serializable] in Hv. rewrite Hv in Hx.
    injection Hx as <-. destruct (num_token n Hv) as [Hne Hall].
    destruct (num_to_string n) as [|c x'] eqn:E; [congruence|].
    exists c, x'. split; [reflexivity|].
    cbn [all_num_chars] in Hall. apply andb_true_iff in Hall as [Hc _].
    destruct (num_char_special c Hc) as [H1 [_ [_ [_ [_ [_ [_ [H8 H9]]]]]]]]. auto.
  - injection Hx as <-. eexists _, _. split; [reflexivity|]. auto.
  - rewrite serialize_JArr in Hx. injection Hx as <-. eexists _, _. split; [reflexivity|]. auto.
  - rewrite (serialize_JObj l (okv_JObj_values l Hv)) in Hx. injection Hx as <-.
    eexists _, _. split; [reflexivity|]. auto.
Qed.

Lemma serialize_ok_some (v : jsval Num) : okv v = true -> exists x, ser v = Some x.
Proof.
  intros Hv. destruct v as [| | |n| |l|l]; try discriminate Hv.
  - eexists; reflexivity.
  - eexists; reflexivity.
  - cbn [json_serializable] in Hv. cbn [serialize]. rewrite Hv. eexists; reflexivity.
  - eexists; reflexivity.
  - eexists; apply serialize_JArr.
  - eexists; apply serialize_JObj, okv_JObj_values, Hv.
Qed.

Local Abbreviation pv := (parse_value string_to_number).
Local Abbreviation pe := (parse_elements string_to_number).
Local Abbreviation pm := (parse_members string_to_number).

Lemma pv_arr (f : nat) (s : string) :
  starts_with "]" (skip_ws s) = None -> pv (S f) (String "[" s) = pe f s [].
Proof. intros H. simpl. rewrite H. reflexivity. Qed.

Lemma pv_obj (f : nat) (s : string) :
  starts_with "}" (skip_ws s) = None -> pv (S f) (String "{" s) = pm f s [].
Proof. intros H. simpl. rewrite H. reflexivity. Qed.

Lemma pv_str (f : nat) (s : string) :
  pv (S f) (String dq s) = match lex_string s with
                           | Some (x, r') => Some (JStr x, r')
                           | None => None
                           end.
Proof. reflexivity. Qed.

Lemma pv_num (f : nat) (c : ascii) (s : string) : num_char c = true ->
  pv (S f) (String c s) =
  let '(tok, rest) := span_num (String c s) in
  match tok with
  | EmptyString => None
  | _ => match string_to_number tok with
         | Some n => Some (JNum n, rest)
         | None => None
         end
  end.
Proof. intros H. destruct c as [[] [] [] [] [] [] [] []]; try discriminate H; reflexivity. Qed.

Lemma pe_S (f : nat) (s : string) (acc : list (jsval Num)) :
  pe (S f) s acc =
  match pv f s with
  | None => None
  | Some (v, r) =>
      let r := skip_ws r in
      match starts_with "," r with
      | Some r' => pe f r' (app acc [v])
      | None => match starts_with "]" r with
                | Some r' => Some (JArr (app acc [v]), r')
                | None => None
                end
      end
  end.
Proof. reflexivity. Qed.

Lemma pm_S (f : nat) (s : string) (acc : list (string * jsval Num)) :
  pm (S f) s acc =
  match starts_with dq (skip_ws s) with
  | None => None
  | Some r0 =>
      match lex_string r0 with
      | None => None
      | Some (k, r1) =>
          match starts_with ":" (skip_ws r1) with
          | None => None
          | Some r2 =>
              match pv f r2 with
              | None => None
              | Some (v, r3) =>
                  let acc' := add_prop acc k v in
                  let r3 := skip_ws r3 in
                  match starts_with "," r3 with
                  | Some r4 => pm f r4 acc'
                  | None => match starts_with "}" r3 with
                            | Some r4 => Some (JObj acc', r4)
                            | None => None
                            end
                  end
              end
          end
      end
  end.
Proof. reflexivity. Qed.

Lemma pe_comma (f : nat) (s s' : string) (v : jsval Num) (acc : list (jsval Num)) :
  pv f s = Some (v, "," ++ s') -> pe (S f) s acc = pe f s' (app acc [v]).
Proof. intros H. rewrite pe_S, H. reflexivity. Qed.

Lemma pe_close (f : nat) (s s' : string) (v : jsval Num) (acc : list (jsval Num)) :
  pv f s = Some (v, "]" ++ s') -> pe (S f) s acc = Some (JArr (app acc [v]), s').
Proof. intros H. rewrite pe_S, H. reflexivity. Qed.

Lemma skip_ws_quote (k s : string) : skip_ws (quote k ++ s) = quote k ++ s.
Proof. reflexivity. Qed.

Lemma pm_comma (f : nat) (k s s' : string) (v : jsval Num) (acc : list (string * jsval Num)) :
  pv f s = Some (v, "," ++ s') ->
  pm (S f) (quote k ++ ":" ++ s) acc = pm f s' (add_prop acc k v).
Proof.
  intros H. rewrite pm_S, skip_ws_quote, (proj1 (quote_lex k _)).
  cbv beta iota. rewrite (proj2 (quote_lex k _)). cbv beta iota.
  change (skip_ws (":" ++ s)) with (":" ++ s). cbn [append starts_with].
  rewrite Ascii.eqb_refl. rewrite H. reflexivity.
Qed.

Lemma pm_close (f : nat) (k s s' : string) (v : jsval Num) (acc : list (string * jsval Num)) :
  pv f s = Some (v, "}" ++ s') ->
  pm (S f) (quote k ++ ":" ++ s) acc = Some (JObj (add_prop acc k v), s').
Proof.
  intros H. rewrite pm_S, skip_ws_quote, (proj1 (quote_lex k _)).
  cbv beta iota. rewrite (proj2 (quote_lex k _)). cbv beta iota.
  change (skip_ws (":" ++ s)) with (":" ++ s). cbn [append starts_with].
  rewrite Ascii.eqb_refl. rewrite H. reflexivity.
Qed.

Local Abbreviation ent := (fun kv : string * jsval Num => quote (fst kv) ++ ":" ++ sval (snd kv)).

Lemma some_eq {A : Type} (a b : A) : Some a = Some b -> b = a.
Proof. congruence. Qed.

Lemma char_app (c : ascii) (s : string) : String c EmptyString ++ s = String c s.
Proof. reflexivity. Qed.

Lemma sval_eq (e : jsval Num) (x : string) : ser e = Some x -> sval e = x.
Proof. intros H. rewrite H. reflexivity. Qed.

Lemma okv_JArr_forallb (l : list (jsval Num)) : okv (JArr l) = forallb okv l.
Proof. induction l as [|e r IH]; [reflexivity|]. rewrite okv_JArr_cons, IH. reflexivity. Qed.

Lemma has_key_In (k : string) (l : list (string * jsval Num)) (kv : string * jsval Num) :
  has_key k l = false -> In kv l -> String.eqb (fst kv) k = false.
Proof.
  induction l as [|[k' v'] l IH]; intros H Hin; [destruct Hin|].
  cbn [has_key] in H. apply orb_false_iff in H as [H1 H2].
  destruct Hin as [<-|Hin]; [cbn [fst]; rewrite String.eqb_sym; exact H1|].
  apply IH; assumption.
Qed.

Lemma concat_head (a : string) (l : list string) :
  exists t, String.concat "," (a :: l) = a ++ t.
Proof. destruct l as [|b l]; [exists ""; rewrite append_nil_r; reflexivity|eexists; reflexivity]. Qed.

Lemma starts_with_other (c c' : ascii) (s : string) :
  Ascii.eqb c' c = false -> starts_with c (String c' s) = None.
Proof. intros H. cbn [starts_with]. rewrite Ascii.eqb_sym, H. reflexivity. Qed.

Lemma parse_elements_ser (l : list (jsval Num)) :
  Forall (fun e => forall fuel x rest, okv e = true -> ser e = Some x ->
            String.length x < fuel -> no_num_start rest = true ->
            pv fuel (x ++ rest) = Some (e, rest)) l ->
  forallb okv l = true -> l <> [] ->
  forall g acc rest,
  String.length (String.concat "," (map (fun e => sval e) l)) + 2 <= g ->
  pe g (String.concat "," (map (fun e => sval e) l) ++ "]" ++ rest) acc =
  Some (JArr (app acc l), rest).
Proof.
  induction l as [|e r IH]; intros HF Hok Hne g acc rest Hlen; [congruence|].
  apply Forall_cons_iff in HF as [He Hr].
  cbn [forallb] in Hok. apply andb_true_iff in Hok as [Hoe Hor].
  destruct (serialize_ok_some e Hoe) as [xe Hxe].
  destruct (serialize_head e xe Hoe Hxe) as [c [x' [Exe _]]].
  destruct g as [|f]; [lia|].
  destruct r as [|e' r'].
  - change (String.concat "," (map (fun e => sval e) [e])) with (sval e) in *.
    rewrite (sval_eq e xe Hxe) in *.
    rewrite (pe_close f _ rest e acc); [reflexivity|].
    apply He; [exact Hoe|exact Hxe|lia|reflexivity].
  - change (String.concat "," (map (fun e => sval e) (e :: e' :: r')))
      with (sval e ++ "," ++ String.concat "," (map (fun e => sval e) (e' :: r'))) in *.
    rewrite (sval_eq e xe Hxe) in *.
    rewrite !length_append_s in Hlen. subst xe. cbn [String.length] in Hlen.
    rewrite !append_assoc_s.
    rewrite (pe_comma f _
               (String.concat "," (map (fun e => sval e) (e' :: r')) ++ "]" ++ rest) e acc).
    + rewrite (IH Hr Hor ltac:(discriminate) f (app acc [e]) rest); [|lia].
      rewrite <- app_assoc. reflexivity.
    + apply He; [exact Hoe|exact Hxe|cbn [String.length]; lia|reflexivity].
Qed.

Lemma parse_members_ser (l : list (string * jsval Num)) :
  Forall (fun kv => forall fuel x rest, okv (snd kv) = true -> ser (snd kv) = Some x ->
            String.length x < fuel -> no_num_start rest = true ->
            pv fuel (x ++ rest) = Some (snd kv, rest)) l ->
  okv (JObj l) = true -> l <> [] ->
  forall g acc rest,
  (forall kv, In kv l -> has_key (fst kv) acc = false) ->
  String.length (String.concat "," (map ent l)) + 2 <= g ->
  pm g (String.concat "," (map ent l) ++ "}" ++ rest) acc = Some (JObj (app acc l), rest).
Proof.
  induction l as [|[k e] r IH]; intros HF Hok Hne g acc rest Hfresh Hlen; [congruence|].
  apply Forall_cons_iff in HF as [He Hr]. cbn [fst snd] in He.
  rewrite okv_JObj_cons in Hok. apply andb_true_iff in Hok as [Hok Hor].
  apply andb_true_iff in Hok as [Hk Hoe]. apply negb_true_iff in Hk.
  destruct (serialize_ok_some e Hoe) as [xe Hxe].
  destruct g as [|f]; [lia|].
  assert (Hacc : add_prop acc k e = app acc [(k, e)]).
  { apply add_prop_fresh. apply (Hfresh (k, e)). left. reflexivity. }
  destruct r as [|kv' r'].
  - change (String.concat "," (map ent [(k, e)])) with (quote k ++ ":" ++ sval e) in *.
    rewrite (sval_eq e xe Hxe) in *.
    rewrite !length_append_s in Hlen. cbn [String.length] in Hlen.
    rewrite !append_assoc_s.
    rewrite (pm_close f k _ rest e acc), Hacc; [reflexivity|].
    apply He; [exact Hoe|exact Hxe|lia|reflexivity].
  - change (String.concat "," (map ent ((k, e) :: kv' :: r')))
      with ((quote k ++ ":" ++ sval e) ++ "," ++ String.concat "," (map ent (kv' :: r'))) in *.
    rewrite (sval_eq e xe Hxe) in *.
    rewrite !length_append_s in Hlen. cbn [String.length] in Hlen.
    rewrite !append_assoc_s.
    rewrite (pm_comma f k _ (String.concat "," (map ent (kv' :: r')) ++ "}" ++ rest) e acc).
    + rewrite Hacc, (IH Hr Hor ltac:(discriminate) f (app acc [(k, e)]) rest).
      * rewrite <- app_assoc. reflexivity.
      * intros kv Hin. rewrite has_key_app, (Hfresh kv (or_intror Hin)). cbn [has_key].
        rewrite (has_key_In k _ kv Hk Hin). reflexivity.
      * lia.
    + apply He; [exact Hoe|exact Hxe|lia|reflexivity].
Qed.

(** [JSON.parse] reads back what [JSON.stringify] wrote, for any fuel above
    the length of the text and any continuation that does not extend a
    number token. *)
Lemma parse_serialize (v : jsval Num) : forall fuel x rest,
  okv v = true -> ser v = Some x -> String.length x < fuel -> no_num_start rest = true ->
  pv fuel (x ++ rest) = Some (v, rest).
Proof.
  induction v as [| |b|n|s|l IH|l IH] using jsval_ind'; intros fuel x rest Hv Hx Hlen Hr;
    (destruct fuel as [|f]; [lia|]).
  - discriminate Hv.
  - injection Hx as <-. reflexivity.
  - injection Hx as <-. destruct b; reflexivity.
  - cbn [json_serializable] in Hv. cbn [serialize] in Hx. rewrite Hv in Hx. injection Hx as <-.
    destruct (num_token n Hv) as [Hne Hall].
    destruct (num_to_string n) as [|c t] eqn:E; [congruence|].
    pose proof Hall as Hc. cbn [all_num_chars] in Hc. apply andb_true_iff in Hc as [Hc _].
    cbn [append]. rewrite (pv_num f c _ Hc).
    change (String c (t ++ rest)) with (String c t ++ rest).
    rewrite (span_num_token _ _ Hall Hr). cbv beta iota zeta.
    rewrite <- E, (num_roundtrip n Hv). reflexivity.
  - injection Hx as <-. unfold quote. cbn [append].
    rewrite pv_str, append_assoc_s, escape_string_lex. reflexivity.
  - rewrite serialize_JArr in Hx. injection Hx as <-.
    rewrite okv_JArr_forallb in Hv.
    destruct l as [|e r]; [reflexivity|].
    destruct (serialize_ok_some e (proj1 (proj1 (andb_true_iff _ _) Hv))) as [xe Hxe].
    destruct (serialize_head e xe (proj1 (proj1 (andb_true_iff _ _) Hv)) Hxe)
      as [c [x' [Exe [Hws [Hb _]]]]].
    destruct (concat_head (sval e) (map (fun e => sval e) r)) as [t Et].
    rewrite ?length_append_s in Hlen. cbn [String.length append] in Hlen.
    rewrite ?length_append_s in Hlen. cbn [String.length] in Hlen.
    cbn [append]. rewrite !append_assoc_s.
    rewrite pv_arr.
    + exact (parse_elements_ser (e :: r) IH Hv ltac:(discriminate) f [] rest ltac:(lia)).
    + change (map (fun e => sval e) (e :: r)) with (sval e :: map (fun e => sval e) r).
      rewrite Et, (sval_eq e xe Hxe), Exe. cbn [append].
      rewrite skip_ws_nows by exact Hws. apply starts_with_other. exact Hb.
  - rewrite (serialize_JObj l (okv_JObj_values l Hv)) in Hx. apply some_eq in Hx. subst x.
    destruct l as [|[k e] r]; [reflexivity|].
    rewrite !length_append_s in Hlen.
    change (String.length "{") with 1 in Hlen. change (String.length "}") with 1 in Hlen.
    rewrite !append_assoc_s, (char_app "{").
    rewrite pv_obj.
    + exact (parse_members_ser ((k, e) :: r) IH Hv ltac:(discriminate) f [] rest
               (fun kv _ => eq_refl) ltac:(lia)).
    + destruct (concat_head (quote k ++ ":" ++ sval e) (map ent r)) as [t Et].
      change (map ent ((k, e) :: r)) with ((quote k ++ ":" ++ sval e) :: map ent r).
      rewrite Et. unfold quote. cbn [append].
      rewrite skip_ws_nows by reflexivity. apply starts_with_other. reflexivity.
Qed.

(** Encoding then decoding gives back every value JSON represents, and
    [undefined]. *)
Lemma encode_decode (v : jsval Num) :
  v = JUndefined \/ okv v = true ->
  match encode_value num_to_string num_is_finite num_truthy v with
  | Ok w => decode_value num_to_string string_to_number num_truthy w
  | Throw e => Throw e
  end = Ok v.
Proof.
  intros [->|Hv]; [reflexivity|].
  unfold encode_value. destruct (truthy num_truthy v) eqn:Tv.
  - unfold json_stringify. destruct (serialize_ok_some v Hv) as [x Hx]. rewrite Hx.
    destruct (serialize_head v x Hv Hx) as [c [x' [Ex _]]].
    unfold decode_value, json_parse, json_parse_text. cbn [truthy to_js_string].
    rewrite Ex. cbn [String.eqb negb]. rewrite <- Ex.
    pose proof (parse_serialize v (S (String.length x)) x "" Hv Hx ltac:(lia) eq_refl) as P.
    rewrite append_nil_r in P. rewrite P. reflexivity.
  - unfold decode_value. rewrite Tv. reflexivity.
Qed.

End RoundTrip.

Lemma nat_digits_num (d : Decimal.uint) : all_num_chars (NilEmpty.string_of_uint d) = true.
Proof. induction d; cbn [NilEmpty.string_of_uint all_num_chars]; rewrite ?IHd; reflexivity. Qed.

Lemma nat_to_string_nonempty (n : nat) : nat_to_string n <> "".
Proof.
  unfold nat_to_string. intros H.
  destruct (Nat.to_uint n) eqn:E; try discriminate H.
  pose proof (DecimalNat.Unsigned.of_to n) as H0. rewrite E in H0. cbn in H0. subst n.
  discriminate E.
Qed.

Lemma nat_string_roundtrip (n : nat) : nat_of_string (nat_to_string n) = Some n.
Proof.
  unfold nat_of_string, nat_to_string. rewrite NilEmpty.usu. cbn [option_map].
  rewrite DecimalNat.Unsigned.of_to. reflexivity.
Qed.

(** C8: for every value JSON represents (finite numbers, no [undefined]
    inside, distinct object keys), and for [undefined], the encode override
    [v && JSON.stringify(v)] followed by the decode override
    [w && JSON.parse(w)] gives back the value; falsy values ([null],
    [false], [0], the empty string, [undefined]) pass through both lines
    unchanged.  Numbers are abstract, with Number::toString producing a
    number token that StringToNumber reads back. *)
Theorem C8_encode_decode_roundtrip {Num : Type} (num_to_string : Num -> string)
    (string_to_number : string -> option Num) (num_is_finite num_truthy : Num -> bool)
    (num_token : forall n, num_is_finite n = true ->
                 num_to_string n <> "" /\ all_num_chars (num_to_string n) = true)
    (num_roundtrip : forall n, num_is_finite n = true ->
                     string_to_number (num_to_string n) = Some n)
    (v : jsval Num) :
  v = JUndefined \/ json_serializable num_is_finite v = true ->
  match encode_value num_to_string num_is_finite num_truthy v with
  | Ok w => decode_value num_to_string string_to_number num_truthy w
  | Throw e => Throw e
  end = Ok v.
Proof.
  exact (encode_decode num_to_string string_to_number num_is_finite num_truthy
           num_token num_roundtrip v).
Qed.

Lemma C8_encode_decode_roundtrip_witness :
  json_serializable (fun _ : nat => true) sampleJson = true /\
  match encode_value nat_to_string (fun _ => true) (fun n => negb (Nat.eqb n 0)) sampleJson with
  | Ok w => decode_value nat_to_string nat_of_string (fun n => negb (Nat.eqb n 0)) w
  | Throw e => Throw e
  end = Ok sampleJson.
Proof.
  split; [reflexivity|].
  apply (C8_encode_decode_roundtrip nat_to_string nat_of_string (fun _ => true)
           (fun n => negb (Nat.eqb n 0))).
  - intros n _. split; [apply nat_to_string_nonempty|apply nat_digits_num].
  - intros n _. apply nat_string_roundtrip.
  - right. reflexivity.
Defined.

(* ================================================================== *)
(** * Further properties of the generator and the visitor *)

(** *** The builder's output *)

Lemma fieldLines_Obj_nonempty (k : string) (sub : list (string * shape)) (p : string)
    (t : transformer) : fieldLines k (Obj sub) p t <> [].
Proof. rewrite fieldLines_Obj. cbv zeta. destruct (key_isArray _); discriminate. Qed.

(** The builder emits no line at all exactly when every entry is a scalar
    other than ['AWSJSON']: a nested object always gives its rebuild lines,
    even when nothing below it is JSON. *)
Theorem transformJsonFields_nil_iff (kids : list (string * shape)) (p : string)
    (t : transformer) :
  transformJsonFields kids p t = [] <->
  Forall (fun kv => exists m, snd kv = Scalar m /\ m <> AWSJSON) kids.
Proof.
  induction kids as [|[k v] r IH]; cbn [transformJsonFields].
  - split; intros _; [constructor|reflexivity].
  - split.
    + intros H. apply app_eq_nil in H as [H1 H2]. constructor; [|apply IH, H2].
      destruct v as [m|sub]; [|exfalso; exact (fieldLines_Obj_nonempty k sub p t H1)].
      exists m. split; [reflexivity|]. intros ->.
      rewrite fieldLines_Scalar, String.eqb_refl in H1. destruct t; discriminate H1.
    + intros H. apply Forall_cons_iff in H as [[m [Hm Hne]] H2]. cbn [snd] in Hm. subst v.
      rewrite fieldLines_Scalar. apply String.eqb_neq in Hne. rewrite Hne. apply IH, H2.
Qed.

Lemma object_count_Obj (kids : list (string * shape)) :
  object_count (Obj kids) = S (list_sum (map (fun kv => object_count (snd kv)) kids)).
Proof.
  induction kids as [|[k v] r IH]; [reflexivity|].
  assert (E : object_count (Obj ((k, v) :: r)) =
              S (object_count v + pred (object_count (Obj r)))) by reflexivity.
  rewrite E, IH. cbn [map list_sum fold_right snd pred]. reflexivity.
Qed.

Lemma json_leaf_count_Obj (kids : list (string * shape)) :
  json_leaf_count (Obj kids) = list_sum (map (fun kv => json_leaf_count (snd kv)) kids).
Proof.
  induction kids as [|[k v] r IH]; [reflexivity|].
  change (json_leaf_count (Obj ((k, v) :: r))) with (json_leaf_count v + json_leaf_count (Obj r)).
  rewrite IH. reflexivity.
Qed.

Lemma fieldLines_length (v : shape) : forall k p t,
  length (fieldLines k v p t) = 3 * object_count v + json_leaf_count v.
Proof.
  induction v as [m|sub IH] using shape_ind'; intros k p t.
  - rewrite fieldLines_Scalar. cbn [object_count json_leaf_count].
    destruct (String.eqb m AWSJSON); [destruct t|]; reflexivity.
  - assert (L : forall q, length (transformJsonFields sub q t) =
              3 * list_sum (map (fun kv => object_count (snd kv)) sub)
              + list_sum (map (fun kv => json_leaf_count (snd kv)) sub)).
    { clear k p. induction sub as [|[k v] r IHr]; intros q; [reflexivity|].
      apply Forall_cons_iff in IH as [Hv Hr]. cbn [transformJsonFields map list_sum fold_right snd].
      cbn [snd] in Hv. rewrite length_app, (Hv k q t), (IHr Hr q). unfold list_sum in *. lia. }
    rewrite object_count_Obj, json_leaf_count_Obj, fieldLines_Obj. cbv zeta.
    destruct (key_isArray _);
      rewrite !length_app, L; cbn [length]; lia.
Qed.

(** The builder emits three lines for every nested object (its opening, the
    spread of the original and its closing) and one override line for every
    ['AWSJSON'] leaf, whatever the path and the direction. *)
Theorem transformJsonFields_line_count (kids : list (string * shape)) (p : string)
    (t : transformer) :
  length (transformJsonFields kids p t) + 3 =
  3 * object_count (Obj kids) + json_leaf_count (Obj kids).
Proof.
  rewrite object_count_Obj, json_leaf_count_Obj.
  induction kids as [|[k v] r IH]; [reflexivity|].
  cbn [transformJsonFields map list_sum fold_right snd] in *.
  rewrite length_app, fieldLines_length. unfold list_sum in *. lia.
Qed.

Lemma fieldLines_twins (v : shape) : forall k p,
  Forall2 direction_twins (fieldLines k v p parse) (fieldLines k v p stringify).
Proof.
  induction v as [m|sub IH] using shape_ind'; intros k p.
  - rewrite !fieldLines_Scalar. destruct (String.eqb m AWSJSON); [|constructor].
    constructor; [|constructor]. right. eexists _, _. split; reflexivity.
  - assert (L : forall q, Forall2 direction_twins (transformJsonFields sub q parse)
                                                  (transformJsonFields sub q stringify)).
    { clear k p. induction sub as [|[k v] r IHr]; intros q; [constructor|].
      apply Forall_cons_iff in IH as [Hv Hr]. cbn [transformJsonFields].
      cbn [snd] in Hv. apply Forall2_app; [apply Hv|apply IHr, Hr]. }
    rewrite !fieldLines_Obj. cbv zeta.
    destruct (key_isArray _);
      (apply Forall2_cons; [left; reflexivity|]);
      (apply Forall2_cons; [left; reflexivity|]);
      (apply Forall2_app; [apply L|]);
      (apply Forall2_cons; [left; reflexivity|constructor]).
Qed.

(** The decode and encode outputs of the builder line up one to one: at
    every position they hold the same line, except where both hold the
    override line of the same field at the same path. *)
Theorem transformJsonFields_directions (kids : list (string * shape)) (p : string) :
  Forall2 direction_twins (transformJsonFields kids p parse)
                          (transformJsonFields kids p stringify).
Proof.
  induction kids as [|[k v] r IH]; [constructor|]. cbn [transformJsonFields].
  apply Forall2_app; [apply fieldLines_twins|exact IH].
Qed.

(** *** The detector on combined mappings *)

(** The detector of a concatenation of entries is the disjunction of the
    detectors of the parts. *)
Theorem hasJsonFields_app (a b : list (string * shape)) :
  hasJsonFields (Some (Obj (app a b))) =
  hasJsonFields (Some (Obj a)) || hasJsonFields (Some (Obj b)).
Proof. rewrite !hasJsonFields_Obj, !hasJsonFields_value_Obj, existsb_app. reflexivity. Qed.

(** The detector does not depend on the order of the entries. *)
Theorem hasJsonFields_permutation (a b : list (string * shape)) :
  Permutation a b -> hasJsonFields (Some (Obj a)) = hasJsonFields (Some (Obj b)).
Proof.
  intros H. rewrite !hasJsonFields_Obj, !hasJsonFields_value_Obj.
  induction H as [|x a b H IH|x y a|a b c H1 IH1 H2 IH2]; cbn [existsb].
  - reflexivity.
  - rewrite IH. reflexivity.
  - destruct (hasJsonFields_value (snd x)), (hasJsonFields_value (snd y)); reflexivity.
  - congruence.
Qed.

Lemma hasJsonFields_permutation_witness :
  Permutation [("id", Scalar "ID"); ("data", Scalar AWSJSON)]
              [("data", Scalar AWSJSON); ("id", Scalar "ID")] /\
  hasJsonFields (Some (Obj [("id", Scalar "ID"); ("data", Scalar AWSJSON)])) =
  hasJsonFields (Some (Obj [("data", Scalar AWSJSON); ("id", Scalar "ID")])).
Proof. split; [apply perm_swap|]. apply hasJsonFields_permutation, perm_swap. Defined.

(** *** The input emitter ignores variables without JSON fields *)

(** Adding a variable whose fields hold no JSON field, anywhere in a
    non-empty variables mapping, leaves the emitted text unchanged. *)
Theorem generateInputTransformer_plain_variable (operationName operationVariablesTypes
    operationResultType : string) (hasRequiredVariables : bool)
    (a b : list (string * VariableType)) (k : string) (v : VariableType) :
  app a b <> [] -> hasJsonFields (variableFields v) = false ->
  generateInputTransformer operationName operationVariablesTypes operationResultType
    hasRequiredVariables (Some (app a ((k, v) :: b))) =
  generateInputTransformer operationName operationVariablesTypes operationResultType
    hasRequiredVariables (Some (app a b)).
Proof.
  intros Hne Hv.
  assert (L1 : 0 < length (app a b)) by (destruct (app a b); [congruence|cbn [length]; lia]).
  assert (L2 : 0 < length (app a ((k, v) :: b)))
    by (rewrite length_app in *; cbn [length]; lia).
  apply Nat.ltb_lt in L1, L2.
  unfold generateInputTransformer. rewrite L1, L2, !existsb_app, !filter_app.
  cbn [existsb filter snd]. rewrite Hv. reflexivity.
Qed.

Lemma generateInputTransformer_plain_variable_witness :
  app [("input", {| variableFields := Some (Obj [("data", Scalar AWSJSON)]) |})] [] <> [] /\
  hasJsonFields (variableFields {| variableFields := Some (Obj [("id", Scalar "ID")]) |}) = false /\
  generateInputTransformer "UpdateNode" "UpdateNodeMutationVariables" "UpdateNodeMutation" true
    (Some (app [("input", {| variableFields := Some (Obj [("data", Scalar AWSJSON)]) |})]
             [("clientId", {| variableFields := Some (Obj [("id", Scalar "ID")]) |})])) =
  generateInputTransformer "UpdateNode" "UpdateNodeMutationVariables" "UpdateNodeMutation" true
    (Some (app [("input", {| variableFields := Some (Obj [("data", Scalar AWSJSON)]) |})] [])).
Proof.
  split; [discriminate|]. split; [reflexivity|].
  apply generateInputTransformer_plain_variable; [discriminate|reflexivity].
Defined.

(** *** The visitor's field table *)

Lemma obj_get_set_same {A : Type} (o : list (string * A)) (k : string) (v : A) :
  obj_get (obj_set o k v) k = Some v.
Proof.
  induction o as [|[k' v'] r IH]; cbn [obj_set obj_get]; [rewrite String.eqb_refl; reflexivity|].
  destruct (String.eqb k k') eqn:E; cbn [obj_get]; rewrite ?E; [reflexivity|exact IH].
Qed.

Lemma obj_get_set_other {A : Type} (o : list (string * A)) (k k2 : string) (v : A) :
  String.eqb k2 k = false -> obj_get (obj_set o k v) k2 = obj_get o k2.
Proof.
  intros H. induction o as [|[k' v'] r IH]; cbn [obj_set obj_get]; [rewrite H; reflexivity|].
  destruct (String.eqb k k') eqn:E; cbn [obj_get].
  - apply String.eqb_eq in E. subst k'. rewrite H. reflexivity.
  - rewrite IH. reflexivity.
Qed.

Lemma obj_get_absent {A : Type} (l : list (string * A)) (k : string) :
  ~ In k (map fst l) -> obj_get l k = None.
Proof.
  induction l as [|[k' v'] r IH]; intros H; [reflexivity|]. cbn [obj_get].
  cbn [map fst In] in H. destruct (String.eqb k k') eqn:E.
  - apply String.eqb_eq in E. subst k'. exfalso. apply H. left. reflexivity.
  - apply IH. intros Hin. apply H. right. exact Hin.
Qed.

Lemma obj_get_fold {A : Type} (l acc : list (string * A)) (k : string) :
  NoDup (map fst l) ->
  obj_get (fold_left (fun o kv => obj_set o (fst kv) (snd kv)) l acc) k =
  match obj_get l k with Some d => Some d | None => obj_get acc k end.
Proof.
  revert acc. induction l as [|[k1 v1] r IH]; intros acc Hnd; [reflexivity|].
  cbn [fold_left fst snd map] in *. apply NoDup_cons_iff in Hnd as [Hk1 Hnd].
  rewrite (IH _ Hnd). cbn [obj_get]. destruct (String.eqb k k1) eqn:E.
  - apply String.eqb_eq in E. subst k1. rewrite (obj_get_absent r k Hk1), obj_get_set_same.
    reflexivity.
  - rewrite (obj_get_set_other acc k1 k v1 E). reflexivity.
Qed.

(** [this.fields] gives each name the mutation field of that name, if there
    is one, and otherwise the query field: a mutation field shadows a query
    field of the same name, and an undefined root type adds nothing. *)
Theorem visitorFields_lookup {A : Type} (queryFields mutationFields : option (list (string * A)))
    (k : string) :
  (forall l, queryFields = Some l -> NoDup (map fst l)) ->
  (forall l, mutationFields = Some l -> NoDup (map fst l)) ->
  obj_get (visitorFields queryFields mutationFields) k =
  match match mutationFields with Some l => obj_get l k | None => None end with
  | Some d => Some d
  | None => match queryFields with Some l => obj_get l k | None => None end
  end.
Proof.
  intros Hq Hm. unfold visitorFields, spread_into.
  destruct mutationFields as [m|]; [rewrite (obj_get_fold m _ k (Hm m eq_refl))|];
    (destruct queryFields as [q|]; [rewrite (obj_get_fold q [] k (Hq q eq_refl))|]).
  - destruct (obj_get m k); [reflexivity|]. destruct (obj_get q k); reflexivity.
  - destruct (obj_get m k); reflexivity.
  - destruct (obj_get q k); reflexivity.
  - reflexivity.
Qed.

Lemma visitorFields_lookup_witness :
  (forall l, Some [("getNode", 1); ("shared", 2)] = Some l -> NoDup (map fst l)) /\
  (forall l, Some [("createNode", 3); ("shared", 4)] = Some l -> NoDup (map fst l)) /\
  obj_get (visitorFields (Some [("getNode", 1); ("shared", 2)])
                         (Some [("createNode", 3); ("shared", 4)])) "shared" = Some 4.
Proof.
  assert (N1 : forall l, Some [("getNode", 1); ("shared", 2)] = Some l -> NoDup (map fst l)).
  { intros l H. injection H as <-. cbn [map fst].
    constructor; [intros [H|[]]; discriminate H|constructor; [intros []|constructor]]. }
  assert (N2 : forall l, Some [("createNode", 3); ("shared", 4)] = Some l -> NoDup (map fst l)).
  { intros l H. injection H as <-. cbn [map fst].
    constructor; [intros [H|[]]; discriminate H|constructor; [intros []|constructor]]. }
  split; [exact N1|]. split; [exact N2|].
  rewrite (visitorFields_lookup _ _ "shared" N1 N2). reflexivity.
Defined.

(** *** Operation suffixes *)

(** With [dedupeOperationSuffix], the suffix is stable: a name that already
    ends in the suffix chosen for it gets no further suffix, so no operation
    name is suffixed twice. *)
Theorem getHookSuffix_dedupe_stable (pascalCase : string -> string)
    (config : ReactQueryPluginConfig) (name operationType : string) :
  dedupeOperationSuffix config = true ->
  pascalCase operationType = "Query" \/ pascalCase operationType = "Mutation" \/
  pascalCase operationType = "Subscription" ->
  _getHookSuffix pascalCase config (name ++ _getHookSuffix pascalCase config name operationType)
    operationType = "".
Proof.
  intros Hd Hp. unfold _getHookSuffix. destruct (omitOperationSuffix config); [reflexivity|].
  rewrite Hd. cbn [negb].
  destruct (includes "Query" name || includes "Mutation" name || includes "Subscription" name)
    eqn:E.
  - rewrite append_nil_r, E. reflexivity.
  - destruct Hp as [H|[H|H]]; rewrite H, includes_suffix, ?orb_true_r, ?orb_true_l; reflexivity.
Qed.

Lemma getHookSuffix_dedupe_stable_witness :
  dedupeOperationSuffix {| omitOperationSuffix := false; dedupeOperationSuffix := true;
                           useTypeImports := false; addInfiniteQuery := false;
                           importOperationTypesFrom := None |} = true /\
  (fun s : string => s) "Query" = "Query" /\
  _getHookSuffix (fun s => s)
    {| omitOperationSuffix := false; dedupeOperationSuffix := true;
       useTypeImports := false; addInfiniteQuery := false; importOperationTypesFrom := None |}
    ("getNode" ++ _getHookSuffix (fun s => s)
       {| omitOperationSuffix := false; dedupeOperationSuffix := true;
          useTypeImports := false; addInfiniteQuery := false; importOperationTypesFrom := None |}
       "getNode" "Query") "Query" = "".
Proof.
  split; [reflexivity|]. split; [reflexivity|].
  apply getHookSuffix_dedupe_stable; [reflexivity|left; reflexivity].
Defined.

(** *** The import line *)

Lemma set_add_idem (x : string) (s : list string) : set_add x (set_add x s) = set_add x s.
Proof.
  unfold set_add. destruct (existsb (String.eqb x) s) eqn:E; [rewrite E; reflexivity|].
  rewrite existsb_app. cbn [existsb]. rewrite String.eqb_refl, orb_true_r. reflexivity.
Qed.

Lemma set_add_nodup (x : string) (s : list string) : NoDup s -> NoDup (set_add x s).
Proof.
  intros H. unfold set_add. destruct (existsb (String.eqb x) s) eqn:E; [exact H|].
  apply (Permutation_NoDup (Permutation_cons_append s x)). constructor; [|exact H].
  intros Hin. assert (T : existsb (String.eqb x) s = true).
  { apply existsb_exists. exists x. split; [exact Hin|apply String.eqb_refl]. }
  congruence.
Qed.

Lemma set_add_In (x : string) (s : list string) : In x (set_add x s).
Proof.
  unfold set_add. destruct (existsb (String.eqb x) s) eqn:E.
  - apply existsb_exists in E as [y [Hy Exy]]. apply String.eqb_eq in Exy. subst y. exact Hy.
  - apply in_or_app. right. left. reflexivity.
Qed.

Lemma set_add_extends (x : string) (s : list string) : exists extra, set_add x s = app s extra.
Proof.
  unfold set_add. destruct (existsb (String.eqb x) s).
  - exists []. rewrite app_nil_r. reflexivity.
  - exists [x]. reflexivity.
Qed.

(** Calling [getImports] again on the state it leaves gives the same
    imports and the same state: adding ['QueryFunctionContext'] to the
    options set a second time changes nothing. *)
Theorem getImports_idempotent (config : ReactQueryPluginConfig) (baseImports : list string)
    (collectedOperations : nat) (st : ReactQueryVisitorState) :
  getImports config baseImports collectedOperations
    (snd (getImports config baseImports collectedOperations st)) =
  getImports config baseImports collectedOperations st.
Proof.
  unfold getImports. destruct (negb (Nat.ltb 0 collectedOperations)); [reflexivity|].
  destruct (addInfiniteQuery config); cbn [snd]; [|reflexivity].
  cbn [reactQueryHookIdentifiersInUse reactQueryOptionsIdentifiersInUse].
  rewrite set_add_idem. reflexivity.
Qed.

(** [getImports] keeps the identifier sets duplicate-free, only appends to
    the options set and never touches the hooks set; with operations and
    [addInfiniteQuery] the options set then holds ['QueryFunctionContext']. *)
Theorem getImports_options (config : ReactQueryPluginConfig) (baseImports : list string)
    (collectedOperations : nat) (st : ReactQueryVisitorState) :
  NoDup (reactQueryOptionsIdentifiersInUse st) ->
  let st' := snd (getImports config baseImports collectedOperations st) in
  NoDup (reactQueryOptionsIdentifiersInUse st') /\
  (exists extra, reactQueryOptionsIdentifiersInUse st' =
                 app (reactQueryOptionsIdentifiersInUse st) extra) /\
  reactQueryHookIdentifiersInUse st' = reactQueryHookIdentifiersInUse st /\
  (addInfiniteQuery config = true -> 0 < collectedOperations ->
   In "QueryFunctionContext" (reactQueryOptionsIdentifiersInUse st')).
Proof.
  intros H st'. subst st'. unfold getImports.
  destruct (Nat.ltb 0 collectedOperations) eqn:L; cbn [negb].
  - destruct (addInfiniteQuery config); cbn [snd reactQueryHookIdentifiersInUse
                                              reactQueryOptionsIdentifiersInUse].
    + split; [apply set_add_nodup, H|]. split; [apply set_add_extends|].
      split; [reflexivity|]. intros _ _. apply set_add_In.
    + split; [exact H|]. split; [exists []; rewrite app_nil_r; reflexivity|].
      split; [reflexivity|]. discriminate.
  - cbn [snd]. split; [exact H|]. split; [exists []; rewrite app_nil_r; reflexivity|].
    split; [reflexivity|]. intros _ Hn. apply Nat.ltb_lt in Hn. congruence.
Qed.

Lemma getImports_options_witness :
  NoDup (reactQueryOptionsIdentifiersInUse
           {| reactQueryHookIdentifiersInUse := ["useQuery"];
              reactQueryOptionsIdentifiersInUse := ["UseQueryOptions"] |}) /\
  In "QueryFunctionContext"
    (reactQueryOptionsIdentifiersInUse
       (snd (getImports {| omitOperationSuffix := false; dedupeOperationSuffix := false;
                           useTypeImports := true; addInfiniteQuery := true;
                           importOperationTypesFrom := None |} [] 1
               {| reactQueryHookIdentifiersInUse := ["useQuery"];
                  reactQueryOptionsIdentifiersInUse := ["UseQueryOptions"] |}))).
Proof.
  assert (N : NoDup (reactQueryOptionsIdentifiersInUse
           {| reactQueryHookIdentifiersInUse := ["useQuery"];
              reactQueryOptionsIdentifiersInUse := ["UseQueryOptions"] |}))
    by (constructor; [intros []|constructor]).
  split; [exact N|].
  apply (getImports_options _ [] 1 _ N); [reflexivity|lia].
Defined.

(** *** Building an operation *)

